(** * Zaf's Kitchen admin back office: booking handlers and OTP login

    A shallow embedding of the two stateful parts of the application:

    - the IPC handlers of the Electron main process that issue SQL
      [UPDATE]/[DELETE] statements against the tables [bookings], [staff]
      and [usertable];
    - the [/api/send-otp] and [/api/verify-otp] routes of the companion
      HTTP server, which keep their state in the in-memory map [otpStore].

    Conventions.  Instants ([Date.now()], SQL [NOW()], TIMESTAMP columns)
    are integers counting milliseconds; the JavaScript clock and the
    database clock are separate inputs of a handler.  Anything a handler
    draws from outside (the random number, the session token, the answer
    of the mail provider) is an explicit argument.  A row is the object
    the driver hands back: a finite map from column names to SQL values.

    Outside the model: lost connections and other failures of the database
    server, the text syntax of UUIDs (an id is the string it is written
    as), time zones, the rounding of floating-point arithmetic, and what
    the HTTP framework does once a route handler has thrown. *)

From Stdlib Require Import ZArith QArith Qround Ascii Lia Lqa.
From stdpp Require Import gmap strings list.

Local Open Scope Z_scope.

(** ** SQL values, rows, and the statements the handlers issue *)

Module Sql.

Inductive value : Type :=
| Null
| Text (s : string)
| Uuid (u : string)
| Int (n : Z)
| Decimal (q : Q)
| Timestamp (ms : Z)
| Raw (repr : string).          (* DATE, TIME and JSONB cells *)

Abbreviation row := (gmap string value).
Abbreviation table := (list (gmap string value)).

(** A column that a row does not carry reads as NULL. *)
Definition col (c : string) (r : row) : value := default Null (r !! c).

(** Comparison operators are three-valued: [None] is SQL's unknown. *)
Definition eq3 (a b : value) : option bool :=
  match a, b with
  | Null, _ | _, Null => None
  | Text s, Text t => Some (String.eqb s t)
  | Uuid s, Uuid t => Some (String.eqb s t)
  | Int m, Int n => Some (m =? n)
  | Decimal p, Decimal q => Some (Qeq_bool p q)
  | Timestamp m, Timestamp n => Some (m =? n)
  | Raw s, Raw t => Some (String.eqb s t)
  | _, _ => None
  end.

Definition lt3 (a b : value) : option bool :=
  match a, b with
  | Int m, Int n => Some (m <? n)
  | Timestamp m, Timestamp n => Some (m <? n)
  | Decimal p, Decimal q => Some (negb (Qle_bool q p))
  | _, _ => None
  end.

Definition not3 (a : option bool) : option bool := negb <$> a.

Definition and3 (a b : option bool) : option bool :=
  match a, b with
  | Some false, _ | _, Some false => Some false
  | Some true, Some true => Some true
  | _, _ => None
  end.

(** The WHERE clauses that occur in the handlers. *)
Inductive cond : Type :=
| Eq (c : string) (v : value)        (* c = v *)
| Ne (c : string) (v : value)        (* c != v *)
| IsNotNull (c : string)             (* c IS NOT NULL *)
| Lt (c : string) (v : value)        (* c < v *)
| And (a b : cond).

Fixpoint eval (w : cond) (r : row) : option bool :=
  match w with
  | Eq c v => eq3 (col c r) v
  | Ne c v => not3 (eq3 (col c r) v)
  | IsNotNull c => Some (match col c r with Null => false | _ => true end)
  | Lt c v => lt3 (col c r) v
  | And a b => and3 (eval a r) (eval b r)
  end.

Fixpoint cond_columns (w : cond) : list string :=
  match w with
  | Eq c _ | Ne c _ | IsNotNull c | Lt c _ => [c]
  | And a b => cond_columns a ++ cond_columns b
  end.

(** A row is selected when the condition is true (not false, not unknown). *)
Definition selected (w : cond) (r : row) : bool :=
  match eval w r with Some true => true | _ => false end.

Inductive returning : Type :=
| Star                                (* RETURNING * *)
| Columns (cs : list string).         (* RETURNING c1, c2, ... *)

Definition returning_columns (ret : returning) : list string :=
  match ret with Star => [] | Columns cs => cs end.

Definition project (ret : returning) (r : row) : row :=
  match ret with
  | Star => r
  | Columns cs => list_to_map ((fun c => (c, col c r)) <$> cs)
  end.

(** SET c1 = v1, c2 = v2, ...; every right-hand side in the handlers is
    a parameter, a literal, NULL or NOW(), so it is a value here. *)
Definition assign (sets : list (string * value)) (r : row) : row :=
  foldl (fun acc cv => <[cv.1 := cv.2]> acc) r sets.

Definition has_column (schema : list string) (c : string) : bool :=
  bool_decide (c ∈ schema).

(** The first column a statement names that the table does not have. *)
Definition unknown_column (schema cs : list string) : option string :=
  head (filter (fun c => has_column schema c = false) cs).

Definition dquote : string := String (Ascii.ascii_of_nat 34) EmptyString.

Definition undefined_column (c : string) : string :=
  "column " +:+ dquote +:+ c +:+ dquote +:+ " does not exist".

Inductive result (A : Type) : Type :=
| Done (x : A)
| Failed (message : string).
Arguments Done {A} x.
Arguments Failed {A} message.

(** UPDATE t SET sets WHERE w RETURNING ret.  The statement is analysed
    before it runs: one that names a column the table does not have is
    rejected and changes nothing.  Otherwise every selected row is
    rewritten in place and the rewritten rows are returned in table
    order. *)
Definition update (schema : list string) (sets : list (string * value))
    (w : cond) (ret : returning) (t : table) : result (table * list row) :=
  match unknown_column schema (sets.*1 ++ cond_columns w ++ returning_columns ret) with
  | Some c => Failed (undefined_column c)
  | None =>
      Done ((fun r => if selected w r then assign sets r else r) <$> t,
            (fun r => project ret (assign sets r)) <$> filter (fun r => selected w r = true) t)
  end.

(** DELETE FROM t WHERE w RETURNING ret. *)
Definition delete_from (schema : list string) (w : cond) (ret : returning)
    (t : table) : result (table * list row) :=
  match unknown_column schema (cond_columns w ++ returning_columns ret) with
  | Some c => Failed (undefined_column c)
  | None =>
      Done (filter (fun r => selected w r = false) t,
            project ret <$> filter (fun r => selected w r = true) t)
  end.

End Sql.

(** ** The IPC handlers of the main process *)

Module Main.
Import Sql.

(** The tables as the application describes them to its renderer
    ([database.schema]; its entity [users] is the table [usertable] of the
    queries). *)
Definition bookings_columns : list string :=
  [ "id"; "user_id"; "full_name"; "contact_number"; "event_type";
    "event_date"; "start_time"; "end_time"; "guest_count"; "food_package";
    "selected_menus"; "event_theme"; "custom_theme"; "theme_suggestions";
    "celebrant_name"; "celebrant_age"; "location"; "package_price";
    "service_charge"; "charge_description"; "total_price";
    "booking_status"; "payment_status"; "cancellation_reason";
    "approval_date"; "event_rating"; "event_feedback"; "completion_date";
    "payment_deadline"; "created_at"; "updated_at" ].

Definition usertable_columns : list string :=
  [ "id"; "name"; "email"; "avatar_url"; "status"; "created_at"; "updated_at" ].

Definition staff_columns : list string :=
  [ "id"; "email"; "full_name"; "role"; "status"; "rejection_reason";
    "created_at"; "updated_at" ].

Record database : Type := {
  bookings : table;
  staff : table;
  usertable : table
}.

Definition with_bookings (t : table) (db : database) : database :=
  {| bookings := t; staff := staff db; usertable := usertable db |}.

Definition with_staff (t : table) (db : database) : database :=
  {| bookings := bookings db; staff := t; usertable := usertable db |}.

Definition with_usertable (t : table) (db : database) : database :=
  {| bookings := bookings db; staff := staff db; usertable := t |}.

(** What a handler resolves to. *)
Inductive response : Type :=
| BookingOk (booking : row)                         (* { success: true, booking } *)
| StaffOk (staff : row)                             (* { success: true, staff } *)
| DeletedStaffOk (deletedStaff : row)               (* { success: true, deletedStaff } *)
| UserOk (user : row)                               (* { success: true, user } *)
| SweepOk (cancelled : nat) (bookings : list row)   (* { success: true, cancelled, bookings } *)
| Error (error : string).                           (* { success: false, error } *)

Definition success (r : response) : bool :=
  match r with Error _ => false | _ => true end.

(** Mail handed to the provider; the senders catch their own failures. *)
Inductive email : Type :=
| BookingCancellationEmail (to full_name booking_id : value)
| StaffApprovalEmail (to full_name : value)
| StaffRejectionEmail (to full_name : value) (rejection_reason : option string).

Record outcome : Type := {
  db_after : database;
  reply : response;
  outbox : list email
}.

(** A string-or-null argument: its truthiness, and as a query parameter. *)
Definition truthy (s : option string) : bool :=
  match s with Some (String _ _) => true | _ => false end.

Definition param (s : option string) : value :=
  match s with Some t => Text t | None => Null end.

Definition by_id (id : string) : cond := Eq "id" (Uuid id).

(** The shape shared by the single-row handlers: run the statement, answer
    with [rows[0]] when a row came back and with [missing] otherwise; a
    rejected statement lands in the [catch] block. *)
Definition first_row (install : table -> database -> database)
    (ok : row -> response) (missing : string)
    (q : result (table * list row)) (db : database) : outcome :=
  match q with
  | Done (t, r :: _) => {| db_after := install t db; reply := ok r; outbox := [] |}
  | Done (t, []) => {| db_after := install t db; reply := Error missing; outbox := [] |}
  | Failed msg => {| db_after := db; reply := Error msg; outbox := [] |}
  end.

(** The query update-booking-status picks: the SET list of each of its
    three branches. *)
Definition status_assignments (now : Z) (status : string)
    (cancellationReason : option string) : list (string * value) :=
  if String.eqb status "rejected" && truthy cancellationReason then
    [ ("booking_status", Text status);
      ("cancellation_reason", param cancellationReason);
      ("updated_at", Timestamp now) ]
  else if String.eqb status "approved" then
    [ ("booking_status", Text status);
      ("cancellation_reason", Null);
      ("approval_date", Timestamp now);
      ("updated_at", Timestamp now) ]
  else
    [ ("booking_status", Text status);
      ("cancellation_reason", Null);
      ("updated_at", Timestamp now) ].

Definition update_booking_status (now : Z) (bookingId status : string)
    (cancellationReason : option string) (db : database) : outcome :=
  first_row with_bookings BookingOk "Booking not found"
    (update bookings_columns (status_assignments now status cancellationReason)
       (by_id bookingId) Star (bookings db)) db.

Definition mark_payment_as_paid (now : Z) (bookingId : string)
    (db : database) : outcome :=
  first_row with_bookings BookingOk "Booking not found"
    (update bookings_columns
       [ ("payment_status", Text "paid"); ("updated_at", Timestamp now) ]
       (by_id bookingId) Star (bookings db)) db.

Definition add_service_charge (now : Z) (bookingId : string)
    (description : option string) (amount newServiceCharge newTotal : Q)
    (db : database) : outcome :=
  first_row with_bookings BookingOk "Booking not found"
    (update bookings_columns
       [ ("charge_description", param description);
         ("service_charge", Decimal newServiceCharge);
         ("total_price", Decimal newTotal);
         ("updated_at", Timestamp now) ]
       (by_id bookingId) Star (bookings db)) db.

Definition complete_booking (now : Z) (bookingId : string) (rating : option Z)
    (feedback : option string) (db : database) : outcome :=
  first_row with_bookings BookingOk "Booking not found"
    (update bookings_columns
       [ ("booking_status", Text "completed");
         ("event_feedback", param feedback);
         ("completion_date", Timestamp now);
         ("updated_at", Timestamp now) ]
       (by_id bookingId) Star (bookings db)) db.

(** [date_now] is [Date.now()] in the main process, [now] is the
    database's [NOW()]. *)
Definition set_payment_deadline (date_now now : Z) (bookingId : string)
    (db : database) : outcome :=
  let paymentDeadline := date_now + 20 * 60 * 60 * 1000 in
  first_row with_bookings BookingOk "Booking not found"
    (update bookings_columns
       [ ("payment_deadline", Timestamp paymentDeadline);
         ("updated_at", Timestamp now) ]
       (by_id bookingId) Star (bookings db)) db.

Definition deadline_reason : string :=
  "Payment not received within 20-hour deadline".

Definition expired (now : Z) : cond :=
  And (Eq "booking_status" (Text "approved"))
 (And (Ne "payment_status" (Text "paid"))
 (And (IsNotNull "payment_deadline")
      (Lt "payment_deadline" (Timestamp now)))).

Definition cancel_expired (now : Z) : list (string * value) :=
  [ ("booking_status", Text "cancelled");
    ("updated_at", Timestamp now);
    ("cancellation_reason", Text deadline_reason) ].

Definition cancellation_email (booking : row) : email :=
  BookingCancellationEmail (col "user_email" booking) (col "full_name" booking)
    (col "id" booking).

Definition check_expired_bookings (now : Z) (db : database) : outcome :=
  match update bookings_columns (cancel_expired now) (expired now)
          (Columns ["id"; "full_name"; "user_email"]) (bookings db) with
  | Done (t, r :: rows) =>
      {| db_after := with_bookings t db;
         reply := SweepOk (length (r :: rows)) (r :: rows);
         outbox := cancellation_email <$> (r :: rows) |}
  | Done (t, []) =>
      {| db_after := with_bookings t db; reply := SweepOk 0 []; outbox := [] |}
  | Failed msg => {| db_after := db; reply := Error msg; outbox := [] |}
  end.

Definition staff_email (status : string) (rejectionReason : option string)
    (staff : row) : list email :=
  if String.eqb status "approved" then
    [ StaffApprovalEmail (col "email" staff) (col "full_name" staff) ]
  else if String.eqb status "rejected" && truthy rejectionReason then
    [ StaffRejectionEmail (col "email" staff) (col "full_name" staff)
        rejectionReason ]
  else [].

Definition update_staff_status (now : Z) (staffId status : string)
    (rejectionReason : option string) (db : database) : outcome :=
  let sets :=
    if String.eqb status "rejected" && truthy rejectionReason then
      [ ("status", Text status);
        ("rejection_reason", param rejectionReason);
        ("updated_at", Timestamp now) ]
    else
      [ ("status", Text status);
        ("rejection_reason", Null);
        ("updated_at", Timestamp now) ] in
  match update staff_columns sets (by_id staffId) Star (staff db) with
  | Done (t, r :: _) =>
      {| db_after := with_staff t db; reply := StaffOk r;
         outbox := staff_email status rejectionReason r |}
  | Done (t, []) =>
      {| db_after := with_staff t db; reply := Error "Staff not found";
         outbox := [] |}
  | Failed msg => {| db_after := db; reply := Error msg; outbox := [] |}
  end.

Definition delete_staff (staffId : string) (db : database) : outcome :=
  first_row with_staff DeletedStaffOk "Staff not found"
    (delete_from staff_columns (by_id staffId)
       (Columns ["id"; "email"; "full_name"]) (staff db)) db.

Definition update_user_status (now : Z) (userId status : string)
    (db : database) : outcome :=
  first_row with_usertable UserOk "User not found"
    (update usertable_columns
       [ ("status", Text status); ("updated_at", Timestamp now) ]
       (by_id userId)
       (Columns ["id"; "name"; "email"; "status"; "avatar_url";
                 "created_at"; "updated_at"])
       (usertable db)) db.

(** *** Requests and runs *)

(** The handlers that write to the database, with the clock readings each
    invocation sees. *)
Inductive request : Type :=
| UpdateBookingStatus (now : Z) (bookingId status : string)
    (cancellationReason : option string)
| MarkPaymentAsPaid (now : Z) (bookingId : string)
| AddServiceCharge (now : Z) (bookingId : string) (description : option string)
    (amount newServiceCharge newTotal : Q)
| CompleteBooking (now : Z) (bookingId : string) (rating : option Z)
    (feedback : option string)
| SetPaymentDeadline (date_now now : Z) (bookingId : string)
| CheckExpiredBookings (now : Z)
| UpdateStaffStatus (now : Z) (staffId status : string)
    (rejectionReason : option string)
| DeleteStaff (staffId : string)
| UpdateUserStatus (now : Z) (userId status : string).

Definition handle (req : request) (db : database) : outcome :=
  match req with
  | UpdateBookingStatus now id status reason =>
      update_booking_status now id status reason db
  | MarkPaymentAsPaid now id => mark_payment_as_paid now id db
  | AddServiceCharge now id description amount charge total =>
      add_service_charge now id description amount charge total db
  | CompleteBooking now id rating feedback =>
      complete_booking now id rating feedback db
  | SetPaymentDeadline date_now now id => set_payment_deadline date_now now id db
  | CheckExpiredBookings now => check_expired_bookings now db
  | UpdateStaffStatus now id status reason =>
      update_staff_status now id status reason db
  | DeleteStaff id => delete_staff id db
  | UpdateUserStatus now id status => update_user_status now id status db
  end.

Definition run (reqs : list request) (db : database) : database :=
  foldl (fun d req => db_after (handle req d)) db reqs.

(** *** The data model's status sets *)

Definition booking_statuses : list string :=
  [ "pending"; "approved"; "rejected"; "cancelled"; "completed" ].

Definition payment_statuses : list string := [ "unpaid"; "paid" ].

Definition statuses_ok (booking : row) : bool :=
  match col "booking_status" booking, col "payment_status" booking with
  | Text s, Text p =>
      bool_decide (s ∈ booking_statuses) && bool_decide (p ∈ payment_statuses)
  | _, _ => false
  end.

Definition statuses_valid (db : database) : Prop :=
  Forall (fun booking => statuses_ok booking = true) (bookings db).

(** The status argument of an update-booking-status call is one of the
    five booking statuses; the other handlers take no booking status. *)
Definition status_argument_ok (req : request) : bool :=
  match req with
  | UpdateBookingStatus _ _ status _ => bool_decide (status ∈ booking_statuses)
  | _ => true
  end.

(** A cancelled booking carries a reason. *)
Definition cancelled_with_reason (booking : row) : bool :=
  match col "booking_status" booking, col "cancellation_reason" booking with
  | Text "cancelled", Null => false
  | _, _ => true
  end.

Definition has_id (id : string) (r : row) : Prop := col "id" r = Uuid id.

End Main.

(** ** The OTP routes of the HTTP server *)

Module Server.

(** A field of a parsed JSON request body ([Undefined] when absent).  An
    object is the list of its members as [JSON.parse] met them. *)
#[local] Unset Elimination Schemes.
Inductive json : Type :=
| Undefined
| JNull
| JBool (b : bool)
| JNumber (q : Q)
| JString (s : string)
| JArray (items : list json)
| JObject (members : list (string * json)).
#[local] Set Elimination Schemes.

(** Whether the template literal [`${v}`] evaluates, that is, whether the
    conversion of [v] to a string returns.  An object parsed from JSON is
    converted by [Object.prototype.toString], unless it has a member
    [toString] of its own: a JSON value is no function, [valueOf] hands
    back the object itself, and the conversion throws a [TypeError].  An
    array is converted by [join], which converts each of its elements. *)
Fixpoint printable (v : json) : bool :=
  match v with
  | JArray items => forallb printable items
  | JObject members =>
      negb (existsb (fun member => String.eqb member.1 "toString") members)
  | _ => true
  end.

(** [String.prototype.toLowerCase], on the ASCII letters. *)
Definition lower (c : ascii) : ascii :=
  let n := nat_of_ascii c in
  if ((65 <=? n) && (n <=? 90))%nat then ascii_of_nat (n + 32) else c.

Fixpoint toLowerCase (s : string) : string :=
  match s with
  | EmptyString => EmptyString
  | String c rest => String (lower c) (toLowerCase rest)
  end.

(** [Number.prototype.toString] on an integer: its decimal digits. *)
Definition digit (d : Z) : ascii := ascii_of_nat (48 + Z.to_nat d).

Fixpoint digits (fuel : nat) (n : Z) (acc : string) : string :=
  match fuel with
  | O => acc
  | S fuel' =>
      let acc' := String (digit (n mod 10)) acc in
      if n / 10 =? 0 then acc' else digits fuel' (n / 10) acc'
  end.

Definition toString (n : Z) : string :=
  if n <? 0 then String "-"%char (digits (S (Z.to_nat (Z.log2 (- n)))) (- n) EmptyString)
  else digits (S (Z.to_nat (Z.log2 n))) n EmptyString.

(** A string of decimal digits, as a six-digit code is. *)
Definition is_digit (c : ascii) : bool :=
  ((48 <=? nat_of_ascii c) && (nat_of_ascii c <=? 57))%nat.

Fixpoint numeric (s : string) : bool :=
  match s with
  | EmptyString => true
  | String c rest => is_digit c && numeric rest
  end.

Record entry : Type := {
  otp : string;
  expires : Z
}.

(** [otpStore], a [Map] from the e-mail string of the request to an entry. *)
Abbreviation store := (gmap string entry).

Record response : Type := {
  success : bool;
  message : string;
  token : option string
}.

Definition refuse (msg : string) : response :=
  {| success := false; message := msg; token := None |}.

Section Routes.

(** [process.env.SMTP_EMAIL], if set. *)
Variable SMTP_EMAIL : option string.

Definition ADMIN_EMAIL : string :=
  match SMTP_EMAIL with
  | Some (String c rest) => String c rest
  | _ => "zafskitchen95@gmail.com"
  end.

Definition authorized (email : string) : bool :=
  String.eqb (toLowerCase email) (toLowerCase ADMIN_EMAIL).

(** [Math.floor(100000 + Math.random() * 900000).toString()], with
    [random] the number [Math.random()] returned; the arithmetic is exact. *)
Definition generate (random : Q) : string :=
  toString (Qfloor (100000 + random * 900000)).

(** A handler hands back the store and the answer it sent with
    [res.json], if it sent one.  Both handlers write the e-mail of the
    request into a log line before they enter their [try] statement; when
    the conversion to a string throws there, no statement of the [try]
    block runs, its [catch] block does not see the error, and the handler
    ends without an answer ([None]).  What the framework does with the
    rejected promise is outside the model.

    Inside the [try] statement [email.toLowerCase()] throws for whatever
    is not a string, and the [catch] block answers.

    [brevo] is what the mail provider's API did: [None] when the request
    was rejected, otherwise the HTTP status. *)
Definition send_otp (date_now : Z) (random : Q) (brevo : option Z)
    (email : json) (otpStore : store) : store * option response :=
  if negb (printable email) then (otpStore, None)
  else
    match email with
    | JString e =>
        if negb (authorized e) then
          (otpStore,
           Some (refuse "Unauthorized email. Only admin can access this system."))
        else
          let code := generate random in
          let otpStore' :=
            <[e := {| otp := code; expires := date_now + 5 * 60 * 1000 |}]> otpStore in
          match brevo with
          | Some 201 =>
              (otpStore',
               Some {| success := true;
                       message := "OTP sent successfully to your email";
                       token := None |})
          | _ => (otpStore', Some (refuse "Failed to send OTP. Please try again."))
          end
    | _ => (otpStore, Some (refuse "Failed to send OTP. Please try again."))
    end.

(** [stored.otp !== otp] with [stored.otp] a string. *)
Definition differs (stored : string) (code : json) : bool :=
  match code with
  | JString c => negb (String.eqb stored c)
  | _ => true
  end.

(** [sessionToken] is the hex string drawn from [crypto.randomBytes]. *)
Definition verify_otp (date_now : Z) (sessionToken : string)
    (email code : json) (otpStore : store) : store * option response :=
  if negb (printable email) then (otpStore, None)
  else
    match email with
    | JString e =>
        if negb (authorized e) then (otpStore, Some (refuse "Unauthorized access"))
        else
          match otpStore !! e with
          | None =>
              (otpStore,
               Some (refuse "OTP expired or not found. Please request a new one."))
          | Some stored =>
              if date_now >? expires stored then
                (delete e otpStore,
                 Some (refuse "OTP has expired. Please request a new one."))
              else if differs (otp stored) code then
                (otpStore, Some (refuse "Invalid OTP. Please check and try again."))
              else
                (delete e otpStore,
                 Some {| success := true; message := "Login successful";
                         token := Some sessionToken |})
          end
    | _ => (otpStore, Some (refuse "Verification failed. Please try again."))
    end.

(** What reaches the two routes: the fields of the parsed request body
    and what the handler draws from outside. *)
Inductive call : Type :=
| SendOtp (date_now : Z) (random : Q) (brevo : option Z) (email : json)
| VerifyOtp (date_now : Z) (sessionToken : string) (email code : json).

Definition serve (c : call) (otpStore : store) : store * option response :=
  match c with
  | SendOtp date_now random brevo email =>
      send_otp date_now random brevo email otpStore
  | VerifyOtp date_now sessionToken email code =>
      verify_otp date_now sessionToken email code otpStore
  end.

Definition is_send (c : call) : bool :=
  match c with SendOtp _ _ _ _ => true | VerifyOtp _ _ _ _ => false end.

(** The e-mail field of a request. *)
Definition email_of (c : call) : json :=
  match c with
  | SendOtp _ _ _ email | VerifyOtp _ _ email _ => email
  end.

(** The e-mail of the request is a string that the admin check accepts. *)
Definition from_admin (c : call) : Prop :=
  exists e, email_of c = JString e /\
            toLowerCase e = toLowerCase ADMIN_EMAIL.

(** The store after a series of requests, served one after the other.  A
    request whose handler threw has left the store as it was. *)
Definition serve_all (cs : list call) (otpStore : store) : store :=
  foldl (fun s c => (serve c s).1) otpStore cs.

End Routes.

End Server.

(** ** Sample data *)

Module Sample.
Import Sql Main.

(** An approved, unpaid booking whose payment deadline (1,000 ms) has
    passed by the time 2,000 ms. *)
Definition overdue : gmap string value :=
  list_to_map
    [ ("id", Uuid "b-1"); ("user_id", Uuid "u-1"); ("full_name", Text "Ana Cruz");
      ("booking_status", Text "approved"); ("payment_status", Text "unpaid");
      ("cancellation_reason", Null); ("approval_date", Timestamp 500);
      ("payment_deadline", Timestamp 1000); ("package_price", Decimal 15000);
      ("total_price", Decimal 15000); ("created_at", Timestamp 100);
      ("updated_at", Timestamp 500) ].

(** A booking still waiting for a decision. *)
Definition waiting : gmap string value :=
  list_to_map
    [ ("id", Uuid "b-2"); ("user_id", Uuid "u-1"); ("full_name", Text "Ana Cruz");
      ("booking_status", Text "pending"); ("payment_status", Text "unpaid");
      ("cancellation_reason", Null); ("approval_date", Null);
      ("payment_deadline", Null); ("package_price", Decimal 9000);
      ("total_price", Decimal 9000); ("created_at", Timestamp 200);
      ("updated_at", Timestamp 200) ].

Definition cook : gmap string value :=
  list_to_map
    [ ("id", Uuid "s-1"); ("email", Text "cook@example.com");
      ("full_name", Text "Ben Reyes"); ("role", Text "cook");
      ("status", Text "pending"); ("rejection_reason", Null);
      ("created_at", Timestamp 50); ("updated_at", Timestamp 50) ].

Definition customer : gmap string value :=
  list_to_map
    [ ("id", Uuid "u-1"); ("name", Text "Ana Cruz");
      ("email", Text "ana@example.com"); ("avatar_url", Null);
      ("status", Text "active"); ("created_at", Timestamp 10);
      ("updated_at", Timestamp 10) ].

Definition db : database :=
  {| bookings := [overdue; waiting]; staff := [cook]; usertable := [customer] |}.

Definition admin : string := "zafskitchen95@gmail.com".

End Sample.

(** ** The reading handlers of the main process *)

Module Reads.
Import Sql Main.

(** SELECT cs FROM t WHERE w: the selected rows, cut down to the listed
    columns, in table order (none of the statements below orders them). *)
Definition select (schema cs : list string) (w : cond) (t : table) :
    result (list row) :=
  match unknown_column schema (cs ++ cond_columns w) with
  | Some c => Failed (undefined_column c)
  | None => Done (project (Columns cs) <$> filter (fun r => selected w r = true) t)
  end.

(** { success: true, status, isBlocked } or { success: false, error }. *)
Inductive status_reply : Type :=
| StatusOk (status : value) (isBlocked : bool)
| StatusError (error : string).

Definition check_user_status (userId : string) (db : database) : status_reply :=
  match select usertable_columns ["status"] (by_id userId) (usertable db) with
  | Done (r :: _) =>
      let status := col "status" r in
      StatusOk status
        (match status with Text s => String.eqb s "blocked" | _ => false end)
  | Done [] => StatusError "User not found"
  | Failed msg => StatusError msg
  end.

(** SELECT COUNT( * ) FROM bookings WHERE user_id = $1, read back with
    [parseInt]. *)
Definition get_user_booking_count (userId : string) (db : database) : Z :=
  Z.of_nat
    (length (filter (fun r => selected (Eq "user_id" (Uuid userId)) r = true)
               (bookings db))).

(** The cell of a TEXT column: a string, or NULL. *)
Definition text_of (v : value) : option string :=
  match v with Text s => Some s | _ => None end.

(** SELECT c, COUNT( * ) FROM t GROUP BY c over the cells of column c: one
    row per distinct cell with the number of rows that carry it. *)
Definition group_count (cells : list (option string)) :
    list (option string * Z) :=
  (fun k => (k, Z.of_nat (length (filter (fun k' => k' = k) cells))))
    <$> remove_dups cells.

(** The statistics objects.  [stats[k] = n] names the property by the
    string form of [k] ([null] for a NULL cell) and does nothing when the
    name is [__proto__]; [stats.total += n] reads the property back. *)
Definition property_name (k : option string) : string := default "null" k.

Definition set_property (name : string) (n : Z) (stats : gmap string Z) :
    gmap string Z :=
  if String.eqb name "__proto__" then stats else <[name := n]> stats.

Definition add_row (stats : gmap string Z) (row : option string * Z) :
    gmap string Z :=
  let stats' := set_property (property_name row.1) row.2 stats in
  <["total" := default 0 (stats' !! "total") + row.2]> stats'.

Definition tally (initial : gmap string Z) (rows : list (option string * Z)) :
    gmap string Z :=
  foldl add_row initial rows.

Definition booking_stats_zero : gmap string Z :=
  {[ "pending" := 0; "approved" := 0; "rejected" := 0; "completed" := 0;
     "total" := 0 ]}.

Definition staff_stats_zero : gmap string Z :=
  {[ "pending" := 0; "approved" := 0; "rejected" := 0; "total" := 0 ]}.

Definition get_booking_stats (db : database) : gmap string Z :=
  tally booking_stats_zero
    (group_count (text_of ∘ col "booking_status" <$> bookings db)).

Definition get_staff_stats (db : database) : gmap string Z :=
  tally staff_stats_zero
    (group_count (text_of ∘ col "status" <$> staff db)).

End Reads.

(** ** Starting the companion server *)

Module Startup.

(** What the main process does while it waits, in order. *)
Inductive event : Type :=
| Check                   (* checkServerHealth() *)
| Start                   (* startBackendServer(): kill the old process, spawn *)
| Sleep (ms : Z).

#[global] Instance event_eq_dec : EqDecision event.
Proof. solve_decision. Defined.

(** The loop of [waitForServer]: [attempts] is [serverStartAttempts],
    [remaining] is [maxAttempts - serverStartAttempts], and [health k]
    is what the k-th health check of this call finds.  A failure of
    [startBackendServer] lands in the loop's [catch], which waits like the
    [try] block does. *)
Fixpoint wait_loop (health : nat -> bool) (interval : Z)
    (attempts remaining : nat) : bool * list event :=
  match remaining with
  | O => (false, [])
  | S remaining' =>
      let attempts' := S attempts in
      if health attempts' then (true, [Check])
      else
        let started := if (attempts' =? 1)%nat then [Start] else [] in
        let slept := match remaining' with O => [] | S _ => [Sleep interval] end in
        let rest := wait_loop health interval attempts' remaining' in
        (rest.1, Check :: started ++ slept ++ rest.2)
  end.

Definition waitForServer (health : nat -> bool) (maxAttempts : nat)
    (interval : Z) : bool * list event :=
  wait_loop health interval 0 maxAttempts.

(** The restart-server handler, [running] telling whether a server
    process is held: stop it, start one, wait for up to 8 checks. *)
Definition restart_server (running : bool) (health : nat -> bool) :
    bool * list event :=
  let stopped := if running then [Sleep 1000] else [] in
  let waited := waitForServer health 8 3000 in
  (waited.1, stopped ++ Start :: waited.2).

Definition starts (trace : list event) : nat :=
  length (filter (fun ev => ev = Start) trace).

Definition checks (trace : list event) : nat :=
  length (filter (fun ev => ev = Check) trace).

Definition slept (trace : list event) : Z :=
  foldr (fun ev total => match ev with Sleep ms => ms + total | _ => total end)
    0 trace.

End Startup.

(** ** The preload script and the renderer: booking buttons, dashboard
    counters, text helpers *)

Module Renderer.
Import Sql Main.

(** [approveBooking]: the request that goes to the main process, if the
    confirmation dialog was accepted. *)
Definition approveBooking (confirmed : bool) (now : Z) (bookingId : string) :
    list request :=
  if confirmed then [UpdateBookingStatus now bookingId "approved" None] else [].

(** [rejectBooking]: [reason] is what the prompt returned, the text typed
    or null. *)
Definition rejectBooking (reason : option string) (now : Z)
    (bookingId : string) : list request :=
  if truthy reason then [UpdateBookingStatus now bookingId "rejected" reason]
  else [].

(** A value in the renderer: an array of booking rows as the main process
    hands them over, or an object written as a literal. *)
#[local] Unset Elimination Schemes.
Inductive js : Type :=
| JsBool (b : bool)
| JsString (s : string)
| JsArray (rows : list row)
| JsObject (properties : list (string * js)).
#[local] Set Elimination Schemes.

(** What [ipcRenderer.invoke('get-bookings')] did in the preload script:
    it resolved to a value, or an error was thrown, with its message (the
    call rejected, or it resolved to null or undefined, whose [length]
    cannot be read). *)
Inductive invoked : Type :=
| Resolved (bookings : js)
| Thrown (message : string).

(** [window.api.getBookings], as the preload script exposes it. *)
Definition getBookings (answer : invoked) : js :=
  match answer with
  | Resolved (JsArray bookings) =>
      JsObject [("success", JsBool true); ("data", JsArray bookings)]
  | Resolved _ =>
      JsObject [("success", JsBool false);
                ("error", JsString "Invalid data received");
                ("data", JsArray [])]
  | Thrown message =>
      JsObject [("success", JsBool false);
                ("error", JsString message);
                ("data", JsArray [])]
  end.

(** [b.booking_status === status] *)
Definition has_status (status : string) (b : row) : bool :=
  match col "booking_status" b with
  | Text s => String.eqb s status
  | _ => false
  end.

Definition with_status (status : string) (bookings : list row) : list row :=
  filter (fun b => has_status status b = true) bookings.

(** [bookings.filter(b => b.booking_status === status)].  Of the values
    above only an array has a method [filter]; on the others the call
    throws a TypeError ([None]), also on an object with a property of
    that name, which holds a value and no function. *)
Definition js_filter (status : string) (bookings : js) : option (list row) :=
  match bookings with
  | JsArray rows => Some (with_status status rows)
  | _ => None
  end.

(** The four counters of the dashboard, as the page shows them. *)
Record counters : Type := {
  pendingCount : nat;
  approvedCount : nat;
  rejectedCount : nat;
  totalCount : nat
}.

(** [loadDashboardStats], with [bookings] what [window.api.getBookings]
    answered and [shown] the counters on the page.  The counters are
    written after the three calls of [filter]; when one of them throws,
    the [catch] block logs the error and the page stays as it is. *)
Definition loadDashboardStats (bookings : js) (shown : counters) : counters :=
  match js_filter "pending" bookings,
        js_filter "approved" bookings,
        js_filter "rejected" bookings,
        bookings with
  | Some pending, Some approved, Some rejected, JsArray rows =>
      {| pendingCount := length pending;
         approvedCount := length approved;
         rejectedCount := length rejected;
         totalCount := length rows |}
  | _, _, _, _ => shown
  end.

(** [utils.truncateText]; [String.prototype.substring(0, n)] is the
    first n characters. *)
Fixpoint substring0 (n : nat) (s : string) : string :=
  match n, s with
  | S n', String c rest => String c (substring0 n' rest)
  | _, _ => EmptyString
  end.

Definition truncateText (text : option string) (maxLength : nat) : string :=
  match text with
  | None | Some EmptyString => EmptyString
  | Some t =>
      if (String.length t <=? maxLength)%nat then t
      else substring0 maxLength t +:+ "..."
  end.

End Renderer.

(** * Properties *)

Import Sql.

(** ** The SQL layer *)

(** Membership of a pair in a SET list that is written out. *)
Ltac in_sets H :=
  cbn in H;
  repeat (apply elem_of_cons in H as [H|H]; [try discriminate H|]);
  try (by apply elem_of_nil in H).

(** A column is, or is not, among the columns of a written-out list. *)
Ltac among_columns :=
  cbn; intros;
  repeat match goal with
         | H : _ ∉ _ :: _ |- _ => apply not_elem_of_cons in H as [? H]
         end;
  repeat (apply not_elem_of_cons; split; [done || discriminate|]);
  first [apply not_elem_of_nil | repeat constructor].

(** Decidable facts about written-out lists, by evaluation. *)
Ltac by_computation := apply (bool_decide_unpack _); by vm_compute.

Section SqlFacts.

Implicit Types (r : gmap string value) (t : list (gmap string value)).
Implicit Types (sets : list (string * value)) (c : string) (w : cond).

Lemma assign_cons k v sets r :
  assign ((k, v) :: sets) r = assign sets (<[k:=v]> r).
Proof. reflexivity. Qed.

Lemma lookup_assign_other sets c r :
  c ∉ sets.*1 -> assign sets r !! c = r !! c.
Proof.
  revert r.
  induction sets as [|[k v] sets IH]; intros r Hc; [done|].
  rewrite fmap_cons, not_elem_of_cons in Hc. destruct Hc as [Hne Hc].
  rewrite assign_cons, IH by done. by rewrite lookup_insert_ne.
Qed.

Lemma lookup_assign_set sets c v r :
  NoDup sets.*1 -> (c, v) ∈ sets -> assign sets r !! c = Some v.
Proof.
  revert r.
  induction sets as [|[k u] sets IH]; intros r Hnd Hin.
  - by apply elem_of_nil in Hin.
  - rewrite fmap_cons in Hnd. apply NoDup_cons in Hnd as [Hk Hnd].
    rewrite assign_cons. apply elem_of_cons in Hin as [Heq|Hin].
    + injection Heq as -> ->.
      rewrite lookup_assign_other by done. apply lookup_insert_eq.
    + by apply IH.
Qed.

Lemma col_assign_other sets c r :
  c ∉ sets.*1 -> col c (assign sets r) = col c r.
Proof. intros. unfold col. by rewrite lookup_assign_other. Qed.

Lemma col_assign_set sets c v r :
  NoDup sets.*1 -> (c, v) ∈ sets -> col c (assign sets r) = v.
Proof. intros ? Hin. unfold col. by rewrite (lookup_assign_set _ _ v). Qed.

(** An accepted UPDATE rewrites the selected rows and returns them. *)
Lemma update_done schema sets w ret t t' rows :
  update schema sets w ret t = Done (t', rows) ->
  t' = (fun r => if selected w r then assign sets r else r) <$> t /\
  rows = (fun r => project ret (assign sets r))
           <$> filter (fun r => selected w r = true) t.
Proof.
  unfold update. destruct (unknown_column _ _); [done|].
  by injection 1 as <- <-.
Qed.

Lemma update_failed_or_done schema sets w ret t :
  (exists msg, update schema sets w ret t = Failed msg) \/
  update schema sets w ret t =
    Done ((fun r => if selected w r then assign sets r else r) <$> t,
          (fun r => project ret (assign sets r))
            <$> filter (fun r => selected w r = true) t).
Proof. unfold update. destruct (unknown_column _ _); eauto. Qed.

(** Selection by primary key. *)
Lemma selected_by_id id r :
  selected (Main.by_id id) r = true <-> Main.has_id id r.
Proof.
  unfold selected, Main.by_id, Main.has_id. cbn [eval].
  destruct (col "id" r) as [| | u | | | |]; cbn; try (split; [done|discriminate]).
  destruct (String.eqb_spec u id) as [->|Hne]; split; try done.
  intros [= ?]. done.
Qed.

Lemma not_selected_by_id id r :
  ~ Main.has_id id r -> selected (Main.by_id id) r = false.
Proof.
  intros Hno. destruct (selected _ r) eqn:E; [|done].
  by apply selected_by_id in E.
Qed.

Lemma fmap_unselected w (f : gmap string value -> gmap string value) t :
  Forall (fun r => selected w r = false) t ->
  (fun r => if selected w r then f r else r) <$> t = t /\
  filter (fun r => selected w r = true) t = [].
Proof.
  induction 1 as [|r t Hr Ht [IH1 IH2]]; [done|].
  rewrite fmap_cons, filter_cons, Hr, IH1, IH2.
  split; [done|]. case_decide; [discriminate|done].
Qed.

(** Selection, clause by clause. *)
Lemma selected_and a b r :
  selected (And a b) r = true <-> selected a r = true /\ selected b r = true.
Proof.
  unfold selected. cbn [eval].
  destruct (eval a r) as [[]|], (eval b r) as [[]|]; cbn; intuition discriminate.
Qed.

Lemma selected_eq_text c s r :
  selected (Eq c (Text s)) r = true <-> col c r = Text s.
Proof.
  unfold selected. cbn [eval].
  destruct (col c r) as [|u| | | | |]; cbn; try (split; [done|discriminate]).
  destruct (String.eqb_spec u s) as [->|]; split; try done. by intros [= ?].
Qed.

Lemma selected_ne_text c s r :
  selected (Ne c (Text s)) r = true <-> exists p, col c r = Text p /\ p <> s.
Proof.
  unfold selected. cbn [eval].
  destruct (col c r) as [|u| | | | |]; cbn;
    try (split; [done|by intros (? & ? & ?)]).
  destruct (String.eqb_spec u s) as [->|]; cbn; split; try done.
  - intros (p & [= <-] & ?). done.
  - eauto.
Qed.

Lemma selected_lt_timestamp c n r :
  selected (Lt c (Timestamp n)) r = true <->
  exists d, col c r = Timestamp d /\ d < n.
Proof.
  unfold selected. cbn [eval].
  destruct (col c r) as [| | | | |d|]; cbn;
    try (split; [done|by intros (? & ? & ?)]).
  destruct (Z.ltb_spec d n); split; try done.
  - eauto.
  - intros (? & [= <-] & ?). lia.
Qed.

Lemma selected_is_not_null c r :
  selected (IsNotNull c) r = true <-> col c r <> Null.
Proof.
  unfold selected. cbn [eval]. destruct (col c r); split; done.
Qed.

End SqlFacts.

(** ** The booking, staff and user handlers *)

Section Handlers.

Import Main.

Implicit Types (db : database) (r : gmap string value) (id status : string).

Lemma with_bookings_same db : with_bookings (bookings db) db = db.
Proof. by destruct db. Qed.

Lemma with_staff_same db : with_staff (staff db) db = db.
Proof. by destruct db. Qed.

Lemma with_usertable_same db : with_usertable (usertable db) db = db.
Proof. by destruct db. Qed.

Lemma update_accepted schema sets w ret (t : list (gmap string value)) :
  unknown_column schema (sets.*1 ++ cond_columns w ++ returning_columns ret) = None ->
  update schema sets w ret t =
    Done ((fun r => if selected w r then assign sets r else r) <$> t,
          (fun r => project ret (assign sets r))
            <$> filter (fun r => selected w r = true) t).
Proof. unfold update. by intros ->. Qed.

Lemma update_by_id_missing schema sets id ret (t : list (gmap string value)) :
  unknown_column schema
    (sets.*1 ++ cond_columns (by_id id) ++ returning_columns ret) = None ->
  Forall (fun r => ~ has_id id r) t ->
  update schema sets (by_id id) ret t = Done (t, []).
Proof.
  intros Hok Hno. rewrite update_accepted by done.
  destruct (fmap_unselected (by_id id) (assign sets) t) as [-> ->]; [|done].
  eapply Forall_impl; [exact Hno|]. intros r. apply not_selected_by_id.
Qed.

Lemma status_assignments_accepted now status reason id :
  unknown_column bookings_columns
    ((status_assignments now status reason).*1 ++ cond_columns (by_id id)
       ++ returning_columns Star) = None.
Proof.
  unfold status_assignments.
  destruct (String.eqb status "rejected" && truthy reason);
    [|destruct (String.eqb status "approved")]; by vm_compute.
Qed.

Lemma update_booking_status_unfold now id status reason db :
  update_booking_status now id status reason db =
  first_row with_bookings BookingOk "Booking not found"
    (Done ((fun r => if selected (by_id id) r
                     then assign (status_assignments now status reason) r else r)
             <$> bookings db,
           assign (status_assignments now status reason)
             <$> filter (fun r => selected (by_id id) r = true) (bookings db)))
    db.
Proof.
  unfold update_booking_status.
  by rewrite update_accepted by apply status_assignments_accepted.
Qed.

(** The answer of a single-row handler whose statement was accepted. *)
Lemma first_row_done install ok missing (t : list (gmap string value))
    (rows : list (gmap string value)) db :
  db_after (first_row install ok missing (Done (t, rows)) db) = install t db /\
  reply (first_row install ok missing (Done (t, rows)) db) =
    match rows with r :: _ => ok r | [] => Error missing end /\
  outbox (first_row install ok missing (Done (t, rows)) db) = [].
Proof. by destruct rows. Qed.

(** The first row an id selects, when some row carries the id. *)
Lemma filter_by_id_head id (t : list (gmap string value)) r :
  r ∈ t -> has_id id r ->
  exists r0 rest,
    filter (fun r => selected (by_id id) r = true) t = r0 :: rest /\
    r0 ∈ t /\ has_id id r0.
Proof.
  intros Hin Hid.
  destruct (filter (fun r => selected (by_id id) r = true) t) as [|r0 rest] eqn:E.
  - exfalso. eapply (filter_nil_not_elem_of _ _ r E); [|done].
    by apply selected_by_id.
  - exists r0, rest. split; [done|].
    assert (r0 ∈ filter (fun r => selected (by_id id) r = true) t) as Hr0
      by (rewrite E; left).
    apply list_elem_of_filter in Hr0 as [Hsel ?].
    split; [done|]. by apply selected_by_id.
Qed.

(** [C8] A status-transition handler called with an id that no row of its
    table carries answers [success: false] with its not-found message
    ('Booking not found', 'Staff not found', 'User not found') and leaves
    the whole database as it was. *)
Theorem missing_row_not_found db id (now date_now : Z) status
    (reason description feedback : option string) (amount charge total : Q)
    (rating : option Z) :
  (Forall (fun r => ~ has_id id r) (bookings db) ->
     let unchanged :=
       {| db_after := db; reply := Error "Booking not found"; outbox := [] |} in
     update_booking_status now id status reason db = unchanged /\
     mark_payment_as_paid now id db = unchanged /\
     add_service_charge now id description amount charge total db = unchanged /\
     complete_booking now id rating feedback db = unchanged /\
     set_payment_deadline date_now now id db = unchanged) /\
  (Forall (fun r => ~ has_id id r) (staff db) ->
     update_staff_status now id status reason db =
       {| db_after := db; reply := Error "Staff not found"; outbox := [] |}) /\
  (Forall (fun r => ~ has_id id r) (usertable db) ->
     update_user_status now id status db =
       {| db_after := db; reply := Error "User not found"; outbox := [] |}).
Proof.
  split; [|split]; intros Hno; cbv zeta.
  - repeat split.
    + unfold update_booking_status.
      rewrite update_by_id_missing by (apply status_assignments_accepted || done).
      cbn. by rewrite with_bookings_same.
    + unfold mark_payment_as_paid.
      rewrite update_by_id_missing by (by vm_compute || done).
      cbn. by rewrite with_bookings_same.
    + unfold add_service_charge.
      rewrite update_by_id_missing by (by vm_compute || done).
      cbn. by rewrite with_bookings_same.
    + unfold complete_booking.
      rewrite update_by_id_missing by (by vm_compute || done).
      cbn. by rewrite with_bookings_same.
    + unfold set_payment_deadline.
      rewrite update_by_id_missing by (by vm_compute || done).
      cbn. by rewrite with_bookings_same.
  - unfold update_staff_status.
    rewrite update_by_id_missing; [by rewrite with_staff_same| |done].
    destruct (String.eqb status "rejected" && truthy reason); by vm_compute.
  - unfold update_user_status.
    rewrite update_by_id_missing by (by vm_compute || done).
    cbn. by rewrite with_usertable_same.
Qed.

Lemma status_assignments_columns now status reason c :
  c ∉ ["booking_status"; "cancellation_reason"; "approval_date"; "updated_at"] ->
  c ∉ (status_assignments now status reason).*1.
Proof.
  unfold status_assignments.
  destruct (String.eqb status "rejected" && truthy reason);
    [|destruct (String.eqb status "approved")]; among_columns.
Qed.

Lemma status_assignments_approval now status reason :
  status <> "approved" ->
  "approval_date" ∉ (status_assignments now status reason).*1.
Proof.
  intros Hne. unfold status_assignments.
  destruct (String.eqb status "rejected" && truthy reason).
  - among_columns.
  - destruct (String.eqb_spec status "approved"); [done|]. among_columns.
Qed.

(** [C9] update-booking-status leaves the staff and user tables alone,
    keeps every booking row in its place, leaves rows with another id
    untouched, and in a row it does rewrite changes no column other than
    booking_status, cancellation_reason, approval_date and updated_at,
    approval_date only when the new status is 'approved'; so
    payment_status, payment_deadline and the pricing columns keep their
    values. *)
Theorem update_booking_status_frame now id status reason db :
  let after := db_after (update_booking_status now id status reason db) in
  staff after = staff db /\
  usertable after = usertable db /\
  length (bookings after) = length (bookings db) /\
  forall (i : nat) r, bookings db !! i = Some r ->
    exists r', bookings after !! i = Some r' /\
      (~ has_id id r -> r' = r) /\
      (forall c,
         c ∉ ["booking_status"; "cancellation_reason"; "approval_date";
              "updated_at"] ->
         r' !! c = r !! c) /\
      (status <> "approved" -> r' !! "approval_date" = r !! "approval_date").
Proof.
  cbv zeta. rewrite update_booking_status_unfold.
  match goal with
  | |- context [first_row ?f ?ok ?m (Done (?t, ?rows)) db] =>
      destruct (first_row_done f ok m t rows db) as (-> & _ & _)
  end.
  cbn [with_bookings bookings staff usertable].
  split; [done|]. split; [done|]. split; [by rewrite length_fmap|].
  intros i r Hr. rewrite list_lookup_fmap, Hr. cbn.
  eexists. split; [done|].
  destruct (selected (by_id id) r) eqn:Hsel.
  - split; [|split].
    + intros Hno. by apply selected_by_id in Hsel.
    + intros c Hc. apply lookup_assign_other.
      by apply status_assignments_columns.
    + intros Hne. apply lookup_assign_other.
      by apply status_assignments_approval.
  - done.
Qed.

(** [C2] set-payment-deadline on the id of an existing booking: that row
    gets payment_deadline = Date.now() + 72,000,000 ms (20 hours) and
    updated_at = NOW() and keeps every other column; rows with another id,
    the staff table and the user table stay as they were; and the handler
    answers success with the updated row. *)
Theorem set_payment_deadline_spec (date_now now : Z) id db (i : nat) r :
  bookings db !! i = Some r ->
  has_id id r ->
  let o := set_payment_deadline date_now now id db in
  let updated := fun r0 : gmap string value =>
    <["updated_at" := Timestamp now]>
      (<["payment_deadline" := Timestamp (date_now + 72000000)]> r0) in
  bookings (db_after o) !! i = Some (updated r) /\
  (updated r !! "payment_deadline" = Some (Timestamp (date_now + 72000000)) /\
   updated r !! "updated_at" = Some (Timestamp now) /\
   forall c, c <> "payment_deadline" -> c <> "updated_at" ->
     updated r !! c = r !! c) /\
  (forall (j : nat) r1, bookings db !! j = Some r1 -> ~ has_id id r1 ->
     bookings (db_after o) !! j = Some r1) /\
  staff (db_after o) = staff db /\
  usertable (db_after o) = usertable db /\
  (exists r0, r0 ∈ bookings db /\ has_id id r0 /\
     reply o = BookingOk (updated r0)) /\
  ((forall r1, r1 ∈ bookings db -> has_id id r1 -> r1 = r) ->
     reply o = BookingOk (updated r)).
Proof.
  intros Hr Hid. cbv zeta. unfold set_payment_deadline.
  rewrite update_accepted by (by vm_compute).
  match goal with
  | |- context [first_row ?f ?ok ?m (Done (?t, ?rows)) db] =>
      destruct (first_row_done f ok m t rows db) as (-> & -> & _)
  end.
  cbn [with_bookings bookings staff usertable].
  change (20 * 60 * 60 * 1000) with 72000000.
  assert (r ∈ bookings db) as Hin by by eapply list_elem_of_lookup_2.
  destruct (filter_by_id_head id (bookings db) r Hin Hid)
    as (r0 & rest & -> & Hin0 & Hid0).
  split; [|split; [|split; [|split; [|split; [|split]]]]].
  - rewrite list_lookup_fmap, Hr. cbn.
    by rewrite (proj2 (selected_by_id id r) Hid).
  - split; [|split].
    + by rewrite lookup_insert_ne, lookup_insert_eq.
    + by rewrite lookup_insert_eq.
    + intros c ? ?. by rewrite !lookup_insert_ne.
  - intros j r1 Hr1 Hno. rewrite list_lookup_fmap, Hr1. cbn.
    by rewrite not_selected_by_id.
  - done.
  - done.
  - exists r0. by repeat split.
  - intros Huniq. cbn. by rewrite (Huniq r0 Hin0 Hid0).
Qed.

(** *** The expiry sweep *)

(** The statement of the sweep returns [user_email], which is not a column
    of [bookings] (the other queries read it from [usertable] through a
    join): the database rejects the statement, whatever the rows are. *)
Lemma sweep_statement_rejected now (t : list (gmap string value)) :
  update bookings_columns (cancel_expired now) (expired now)
    (Columns ["id"; "full_name"; "user_email"]) t
  = Failed (undefined_column "user_email").
Proof. reflexivity. Qed.

Lemma check_expired_bookings_fails now db :
  check_expired_bookings now db =
    {| db_after := db; reply := Error (undefined_column "user_email");
       outbox := [] |}.
Proof. unfold check_expired_bookings. by rewrite sweep_statement_rejected. Qed.

(** The rows the WHERE clause of the sweep selects. *)
Lemma expired_selected now r :
  selected (expired now) r = true <->
  col "booking_status" r = Text "approved" /\
  (exists p, col "payment_status" r = Text p /\ p <> "paid") /\
  (exists d, col "payment_deadline" r = Timestamp d /\ d < now).
Proof.
  unfold expired.
  rewrite !selected_and, selected_eq_text, selected_ne_text,
    selected_is_not_null, selected_lt_timestamp.
  split; [tauto|].
  intros (? & ? & d & Hd & ?). repeat split; eauto.
  by rewrite Hd.
Qed.

(** What the SET clause of the sweep writes. *)
Lemma cancel_expired_effect now r :
  col "booking_status" (assign (cancel_expired now) r) = Text "cancelled" /\
  col "cancellation_reason" (assign (cancel_expired now) r) = Text deadline_reason /\
  col "updated_at" (assign (cancel_expired now) r) = Timestamp now /\
  forall c, c ∉ ["booking_status"; "updated_at"; "cancellation_reason"] ->
    assign (cancel_expired now) r !! c = r !! c.
Proof.
  assert (NoDup (cancel_expired now).*1) as Hnd
    by (apply (bool_decide_unpack _); by vm_compute).
  split; [|split; [|split]].
  - apply col_assign_set; [done|]. among_columns.
  - apply col_assign_set; [done|]. among_columns.
  - apply col_assign_set; [done|]. among_columns.
  - intros c Hc. by apply lookup_assign_other.
Qed.

(** [C1] The sweep at 2,000 ms over a table holding an approved, unpaid
    booking whose deadline passed at 1,000 ms: the booking qualifies, yet
    the handler answers [success: false] and the booking stays approved. *)
Theorem expiry_sweep_cancels_nothing :
  selected (expired 2000) Sample.overdue = true /\
  check_expired_bookings 2000 Sample.db =
    {| db_after := Sample.db;
       reply := Error (undefined_column "user_email");
       outbox := [] |} /\
  success (reply (check_expired_bookings 2000 Sample.db)) = false /\
  col "booking_status" <$> bookings (db_after (check_expired_bookings 2000 Sample.db))
    = [Text "approved"; Text "pending"].
Proof. by vm_compute. Qed.

(** *** Status values *)

Lemma update_preserves (P : gmap string value -> Prop) schema sets w ret
    (t : list (gmap string value)) :
  Forall P t ->
  (forall r, P r -> P (assign sets r)) ->
  match update schema sets w ret t with
  | Done (t', _) => Forall P t'
  | Failed _ => True
  end.
Proof.
  intros Ht Hassign.
  destruct (update_failed_or_done schema sets w ret t) as [[msg ->]| ->]; [done|].
  apply Forall_fmap. eapply Forall_impl; [exact Ht|].
  intros r Hr. cbn. destruct (selected w r); auto.
Qed.

Lemma first_row_bookings (P : gmap string value -> Prop) ok missing q db :
  match q with Done (t', _) => Forall P t' | Failed _ => True end ->
  Forall P (bookings db) ->
  Forall P (bookings (db_after (first_row with_bookings ok missing q db))).
Proof. destruct q as [[t' [|r rows]]|msg]; cbn; auto. Qed.

Lemma first_row_elsewhere install ok missing q db :
  (forall t, bookings (install t db) = bookings db) ->
  bookings (db_after (first_row install ok missing q db)) = bookings db.
Proof. intros Hi. destruct q as [[t' [|r rows]]|msg]; cbn; auto. Qed.

(** Writing a valid booking status, or none, and a valid payment status,
    or none, keeps a row's statuses valid. *)
Lemma statuses_ok_assign sets r :
  NoDup sets.*1 ->
  (forall v, ("booking_status", v) ∈ sets ->
     exists s, v = Text s /\ s ∈ booking_statuses) ->
  (forall v, ("payment_status", v) ∈ sets ->
     exists p, v = Text p /\ p ∈ payment_statuses) ->
  statuses_ok r = true -> statuses_ok (assign sets r) = true.
Proof.
  intros Hnd Hb Hp Hok. unfold statuses_ok in *.
  assert (exists s, col "booking_status" (assign sets r) = Text s /\
                    s ∈ booking_statuses) as (s & -> & Hs).
  { destruct (decide ("booking_status" ∈ sets.*1)) as [Hin|Hout].
    - apply list_elem_of_fmap in Hin as ([c v] & Hc & Hin).
      cbn in Hc. subst c. destruct (Hb v Hin) as (s & -> & Hs).
      exists s. split; [|done]. by apply col_assign_set.
    - rewrite col_assign_other by done.
      destruct (col "booking_status" r) as [|s| | | | |]; try done.
      exists s. split; [done|].
      destruct (col "payment_status" r); try done.
      apply andb_prop in Hok as [Hs _]. by apply bool_decide_eq_true_1 in Hs. }
  assert (exists p, col "payment_status" (assign sets r) = Text p /\
                    p ∈ payment_statuses) as (p & -> & Hpp).
  { destruct (decide ("payment_status" ∈ sets.*1)) as [Hin|Hout].
    - apply list_elem_of_fmap in Hin as ([c v] & Hc & Hin).
      cbn in Hc. subst c. destruct (Hp v Hin) as (p & -> & Hpp).
      exists p. split; [|done]. by apply col_assign_set.
    - rewrite col_assign_other by done.
      destruct (col "booking_status" r); try done.
      destruct (col "payment_status" r) as [|p| | | | |]; try done.
      exists p. split; [done|].
      apply andb_prop in Hok as [_ Hpp]. by apply bool_decide_eq_true_1 in Hpp. }
  apply andb_true_intro. split; by apply bool_decide_eq_true_2.
Qed.

Lemma status_assignments_ok now status reason r :
  status ∈ booking_statuses ->
  statuses_ok r = true ->
  statuses_ok (assign (status_assignments now status reason) r) = true.
Proof.
  intros Hs. unfold status_assignments.
  destruct (String.eqb status "rejected" && truthy reason);
    [|destruct (String.eqb status "approved")];
    (apply statuses_ok_assign; [by_computation| |]); intros v Hv; in_sets Hv;
    injection Hv as ->; eauto.
Qed.

Lemma handle_preserves_statuses req db :
  status_argument_ok req = true ->
  statuses_valid db -> statuses_valid (db_after (handle req db)).
Proof.
  unfold statuses_valid. intros Harg Hdb.
  destruct req; cbn [handle].
  - apply first_row_bookings; [|done].
    apply update_preserves; [done|]. intros r.
    apply status_assignments_ok. by apply bool_decide_eq_true_1 in Harg.
  - apply first_row_bookings; [|done].
    apply update_preserves; [done|]. intros r.
    apply statuses_ok_assign; [by_computation| |]; intros v Hv; in_sets Hv.
    injection Hv as ->. eexists. split; [done|]. by_computation.
  - apply first_row_bookings; [|done].
    apply update_preserves; [done|]. intros r.
    apply statuses_ok_assign; [by_computation| |]; intros v Hv; in_sets Hv.
  - apply first_row_bookings; [|done].
    apply update_preserves; [done|]. intros r.
    apply statuses_ok_assign; [by_computation| |]; intros v Hv; in_sets Hv.
    injection Hv as ->. eexists. split; [done|]. by_computation.
  - apply first_row_bookings; [|done].
    apply update_preserves; [done|]. intros r.
    apply statuses_ok_assign; [by_computation| |]; intros v Hv; in_sets Hv.
  - unfold check_expired_bookings.
    pose proof (update_preserves (fun r => statuses_ok r = true)
      bookings_columns (cancel_expired now) (expired now)
      (Columns ["id"; "full_name"; "user_email"]) (bookings db) Hdb) as Hsweep.
    destruct (update _ _ _ _ _) as [[t' [|r rows]]|msg]; cbn; try done;
      apply Hsweep; intros r0;
      (apply statuses_ok_assign; [by_computation| |]); intros v Hv; in_sets Hv;
      injection Hv as ->; eexists; (split; [done|]); by_computation.
  - unfold update_staff_status.
    by destruct (update _ _ _ _ _) as [[t' [|r rows]]|msg].
  - unfold delete_staff. by rewrite first_row_elsewhere.
  - unfold update_user_status. by rewrite first_row_elsewhere.
Qed.

Lemma run_preserves_statuses reqs db :
  statuses_valid db ->
  Forall (fun req => status_argument_ok req = true) reqs ->
  statuses_valid (run reqs db).
Proof.
  intros Hdb Hreqs. revert db Hdb. unfold run.
  induction Hreqs as [|req reqs Hreq _ IH]; intros db Hdb; [done|].
  cbn [foldl]. apply IH. by apply handle_preserves_statuses.
Qed.

Lemma status_stored_as_given now id status reason db (i : nat) r :
  bookings db !! i = Some r -> has_id id r ->
  exists r',
    bookings (db_after (update_booking_status now id status reason db)) !! i
      = Some r' /\
    col "booking_status" r' = Text status.
Proof.
  intros Hr Hid. rewrite update_booking_status_unfold.
  match goal with
  | |- context [first_row ?f ?ok ?m (Done (?t, ?rows)) db] =>
      destruct (first_row_done f ok m t rows db) as (-> & _ & _)
  end.
  cbn [with_bookings bookings]. rewrite list_lookup_fmap, Hr. cbn.
  rewrite (proj2 (selected_by_id id r) Hid).
  eexists. split; [done|]. unfold status_assignments.
  destruct (String.eqb status "rejected" && truthy reason);
    [|destruct (String.eqb status "approved")];
    (apply col_assign_set; [by_computation|]); cbn; left.
Qed.

(** [C4, as amended] update-booking-status does not validate its status
    argument: it stores the string it is given.  The status sets of the
    data model are therefore an invariant of the runs in which every
    update-booking-status call carries one of the five booking statuses:
    from a database whose bookings all have a booking_status among
    pending, approved, rejected, cancelled, completed and a payment_status
    among unpaid, paid, every such run ends in a database with the same
    property. *)
Theorem statuses_valid_for_valid_arguments reqs db :
  statuses_valid db ->
  Forall (fun req => status_argument_ok req = true) reqs ->
  statuses_valid (run reqs db) /\
  (forall now id status reason db0 (i : nat) r,
     bookings db0 !! i = Some r -> has_id id r ->
     exists r',
       bookings (db_after (update_booking_status now id status reason db0)) !! i
         = Some r' /\
       col "booking_status" r' = Text status).
Proof.
  intros Hdb Hreqs. split; [by apply run_preserves_statuses|].
  intros now id status reason db0 i r Hr Hid.
  exact (status_stored_as_given now id status reason db0 i r Hr Hid).
Qed.

Lemma statuses_valid_for_valid_arguments_witness :
  statuses_valid
    (run [ UpdateBookingStatus 3000 "b-2" "approved" None;
           SetPaymentDeadline 3001 3002 "b-2";
           MarkPaymentAsPaid 4000 "b-2";
           CheckExpiredBookings 5000;
           CompleteBooking 6000 "b-2" None (Some "Great food") ]
       Sample.db).
Proof.
  refine (proj1 (statuses_valid_for_valid_arguments
           [ UpdateBookingStatus 3000 "b-2" "approved" None;
             SetPaymentDeadline 3001 3002 "b-2";
             MarkPaymentAsPaid 4000 "b-2";
             CheckExpiredBookings 5000;
             CompleteBooking 6000 "b-2" None (Some "Great food") ]
           Sample.db _ _)).
  - repeat constructor.
  - repeat constructor.
Defined.

(** [C4, counterexample] All bookings of the sample database have valid
    statuses; update-booking-status called with the string 'archived'
    stores it, and the booking's status is then outside the five values. *)
Lemma status_argument_not_validated :
  statuses_valid Sample.db /\
  success (reply (update_booking_status 3000 "b-2" "archived" None Sample.db))
    = true /\
  col "booking_status"
    <$> bookings (db_after (update_booking_status 3000 "b-2" "archived" None Sample.db))
    = [Text "approved"; Text "archived"] /\
  ~ statuses_valid
      (db_after (update_booking_status 3000 "b-2" "archived" None Sample.db)).
Proof.
  split; [repeat constructor|]. split; [by vm_compute|]. split; [by vm_compute|].
  intros Hvalid. apply Forall_lookup with (i := 1%nat) (x :=
    assign (status_assignments 3000 "archived" None) Sample.waiting) in Hvalid.
  - by vm_compute in Hvalid.
  - by vm_compute.
Qed.

(** *** Cancelled bookings and their reason *)

Lemma cancel_through_status_update now id reason db (i : nat) r :
  bookings db !! i = Some r -> has_id id r ->
  exists r',
    bookings (db_after (update_booking_status now id "cancelled" reason db)) !! i
      = Some r' /\
    col "booking_status" r' = Text "cancelled" /\
    col "cancellation_reason" r' = Null.
Proof.
  intros Hr Hid. rewrite update_booking_status_unfold.
  match goal with
  | |- context [first_row ?f ?ok ?m (Done (?t, ?rows)) db] =>
      destruct (first_row_done f ok m t rows db) as (-> & _ & _)
  end.
  cbn [with_bookings bookings]. rewrite list_lookup_fmap, Hr. cbn.
  rewrite (proj2 (selected_by_id id r) Hid).
  eexists. split; [done|].
  split; unfold col; by simplify_map_eq.
Qed.

(** [C5] update-booking-status called with status 'cancelled' and the
    reason 'Client withdrew' on the pending sample booking: the handler
    answers success, the booking is now cancelled, and its
    cancellation_reason is NULL; the reason passed in is dropped. *)
Theorem cancelled_without_reason :
  let o := update_booking_status 3000 "b-2" "cancelled" (Some "Client withdrew")
             Sample.db in
  success (reply o) = true /\
  (fun r => (col "booking_status" r, col "cancellation_reason" r))
    <$> bookings (db_after o)
    = [ (Text "approved", Null); (Text "cancelled", Null) ] /\
  cancelled_with_reason <$> bookings (db_after o) = [true; false].
Proof. by vm_compute. Qed.

(** *** The theorems at the sample database *)

Lemma missing_row_not_found_witness :
  complete_booking 7000 "b-9" None (Some "n/a") Sample.db =
    {| db_after := Sample.db; reply := Error "Booking not found"; outbox := [] |} /\
  update_staff_status 7000 "b-9" "approved" None Sample.db =
    {| db_after := Sample.db; reply := Error "Staff not found"; outbox := [] |} /\
  update_user_status 7000 "b-9" "approved" Sample.db =
    {| db_after := Sample.db; reply := Error "User not found"; outbox := [] |}.
Proof.
  destruct (missing_row_not_found Sample.db "b-9" 7000 6999 "approved"
              None None (Some "n/a") 0 0 0 None) as (Hbookings & Hstaff & Huser).
  split; [|split].
  - apply Hbookings. repeat constructor; intros Hid; by vm_compute in Hid.
  - apply Hstaff. repeat constructor; intros Hid; by vm_compute in Hid.
  - apply Huser. repeat constructor; intros Hid; by vm_compute in Hid.
Defined.

Lemma set_payment_deadline_spec_witness :
  bookings (db_after (set_payment_deadline 3000 3001 "b-2" Sample.db)) !! 1%nat
    = Some (<["updated_at" := Timestamp 3001]>
              (<["payment_deadline" := Timestamp 72003000]> Sample.waiting)) /\
  reply (set_payment_deadline 3000 3001 "b-2" Sample.db)
    = BookingOk (<["updated_at" := Timestamp 3001]>
                   (<["payment_deadline" := Timestamp 72003000]> Sample.waiting)).
Proof.
  assert (bookings Sample.db !! 1%nat = Some Sample.waiting) as Hrow
    by reflexivity.
  assert (has_id "b-2" Sample.waiting) as Hid by reflexivity.
  destruct (set_payment_deadline_spec 3000 3001 "b-2" Sample.db 1 Sample.waiting
              Hrow Hid) as (Hafter & _ & _ & _ & _ & _ & Hreply).
  split; [exact Hafter|]. apply Hreply.
  intros r1 Hin Hr1.
  apply elem_of_cons in Hin as [->|Hin]; [by vm_compute in Hr1|].
  apply elem_of_cons in Hin as [->|Hin]; [done|].
  by apply elem_of_nil in Hin.
Defined.

Lemma update_booking_status_frame_witness :
  exists r',
    bookings (db_after (update_booking_status 3000 "b-2" "rejected"
                          (Some "Date unavailable") Sample.db)) !! 1%nat = Some r' /\
    r' !! "payment_status" = Some (Text "unpaid") /\
    r' !! "total_price" = Some (Decimal 9000) /\
    r' !! "approval_date" = Some Null.
Proof.
  destruct (update_booking_status_frame 3000 "b-2" "rejected"
              (Some "Date unavailable") Sample.db) as (_ & _ & _ & Hrows).
  destruct (Hrows 1%nat Sample.waiting eq_refl) as (r' & Hr' & _ & Hframe & Happroval).
  exists r'. split; [exact Hr'|]. split; [|split].
  - rewrite Hframe; [reflexivity|].
    rewrite !not_elem_of_cons. repeat split; try discriminate.
    apply not_elem_of_nil.
  - rewrite Hframe; [reflexivity|].
    rewrite !not_elem_of_cons. repeat split; try discriminate.
    apply not_elem_of_nil.
  - rewrite Happroval; [reflexivity|discriminate].
Defined.

End Handlers.

(** ** The OTP routes *)

Section Otp.

Import Server.

Implicit Types (env : option string) (s : gmap string entry).
Implicit Types (email code : json) (e tok : string).

Lemma authorized_iff env e :
  authorized env e = true <-> toLowerCase e = toLowerCase (ADMIN_EMAIL env).
Proof. unfold authorized. by destruct (String.eqb_spec (toLowerCase e) (toLowerCase (ADMIN_EMAIL env))). Qed.

Lemma differs_false stored code :
  differs stored code = false <-> code = JString stored.
Proof.
  destruct code as [| | | |c|items|members]; cbn; try (split; discriminate).
  destruct (String.eqb_spec stored c) as [->|Hne]; cbn; split; try done.
  intros [= ->]. done.
Qed.

(** The handler sends no answer exactly when the log line throws, and the
    store is then as it was. *)
Lemma verify_otp_unanswered env (now : Z) tok email code s :
  ((verify_otp env now tok email code s).2 = None <-> printable email = false) /\
  (printable email = false -> (verify_otp env now tok email code s).1 = s).
Proof.
  unfold verify_otp. destruct (printable email) eqn:Hp; cbn.
  - split; [|discriminate]. split; [|discriminate].
    destruct email as [| | | |e|items|members]; try discriminate.
    destruct (authorized env e); cbn; [|discriminate].
    destruct (s !! e) as [stored|]; [|discriminate].
    destruct (now >? expires stored); [discriminate|].
    by destruct (differs (otp stored) code).
  - done.
Qed.

(** A successful verify-otp found, under the e-mail of the request, an
    unexpired entry with the code of the request. *)
Lemma verify_otp_answer env (now : Z) tok email code s :
  success <$> (verify_otp env now tok email code s).2 = Some true ->
  exists e stored,
    email = JString e /\
    toLowerCase e = toLowerCase (ADMIN_EMAIL env) /\
    s !! e = Some stored /\
    ~ (now > expires stored) /\
    code = JString (otp stored).
Proof.
  unfold verify_otp. destruct (printable email); cbn; [|discriminate].
  destruct email as [| | | |e|items|members]; try discriminate.
  destruct (authorized env e) eqn:Hauth; [|discriminate].
  apply authorized_iff in Hauth. cbn.
  destruct (s !! e) as [stored|] eqn:Hs; [|discriminate].
  destruct (Z.gtb_spec now (expires stored)) as [Hlate|Hintime]; [discriminate|].
  destruct (differs (otp stored) code) eqn:Hcode; [discriminate|].
  apply differs_false in Hcode. intros _.
  exists e, stored. by repeat split.
Qed.

(** What holds of every verify-otp request: the answer is a success
    exactly when the e-mail of the request is a string equal to the admin
    e-mail up to letter case, the store has an entry under that e-mail,
    the clock is not past the entry's expiry, and the code of the request
    is the stored code; a successful answer carries the session token and
    a refusal carries none. *)
Lemma verify_otp_success_iff env (now : Z) tok email code s :
  let answer := (verify_otp env now tok email code s).2 in
  (success <$> answer = Some true <->
     exists e stored,
       email = JString e /\
       toLowerCase e = toLowerCase (ADMIN_EMAIL env) /\
       s !! e = Some stored /\
       ~ (now > expires stored) /\
       code = JString (otp stored)) /\
  (success <$> answer = Some true -> token <$> answer = Some (Some tok)) /\
  (success <$> answer = Some false -> token <$> answer = Some None).
Proof.
  cbv zeta. split; [split|].
  - apply verify_otp_answer.
  - intros (e & stored & -> & Hadmin & Hs & Hintime & ->).
    apply authorized_iff in Hadmin.
    unfold verify_otp. rewrite Hadmin, Hs. cbn.
    destruct (Z.gtb_spec now (expires stored)); [lia|].
    by rewrite String.eqb_refl.
  - unfold verify_otp. destruct (printable email); cbn; [|done].
    destruct email as [| | | |e|items|members]; try done.
    destruct (authorized env e); [|done]. cbn.
    destruct (s !! e) as [stored|]; [|done].
    destruct (now >? expires stored); [done|].
    by destruct (differs (otp stored) code).
Qed.

(** [C3] A verify-otp request whose e-mail field is the object
    [{"toString": 0}]: the log line in front of the [try] statement throws
    on the conversion of the e-mail to a string, so that the handler sends
    no answer at all, neither a success nor the refusal of its [catch]
    block, with the store left as it was.  An e-mail that is a number
    reaches the [try] statement and is refused there. *)
Theorem verify_otp_without_answer :
  let s : gmap string entry :=
    {[ Sample.admin := {| otp := "550000"; expires := 301000 |} ]} in
  let email := JObject [("toString", JNumber 0)] in
  printable email = false /\
  verify_otp None 2000 "t" email (JString "550000") s = (s, None) /\
  verify_otp None 2000 "t" (JNumber 7) (JString "550000") s
    = (s, Some (refuse "Verification failed. Please try again.")).
Proof. by vm_compute. Qed.

Lemma verify_otp_absent env (now : Z) tok email code s (e : string) :
  s !! e = None ->
  ((verify_otp env now tok email code s).1 : gmap string entry) !! e = None.
Proof.
  intros Hs. unfold verify_otp. destruct (printable email); cbn; [|done].
  destruct email as [| | | |e'|items|members]; try done.
  destruct (authorized env e'); cbn; [|done].
  destruct (s !! e') as [stored|] eqn:Hs'; [|done].
  destruct (now >? expires stored); cbn.
  - rewrite lookup_delete. by case_decide.
  - destruct (differs (otp stored) code); cbn; [done|].
    rewrite lookup_delete. by case_decide.
Qed.

Lemma serve_verifications_absent env (cs : list call) s (e : string) :
  Forall (fun c => is_send c = false) cs ->
  s !! e = None -> (serve_all env cs s : gmap string entry) !! e = None.
Proof.
  intros Hcs. revert s. unfold serve_all.
  induction Hcs as [|c cs Hc _ IH]; intros s Hs; [done|].
  cbn [foldl]. apply IH. destruct c; [discriminate|].
  by apply verify_otp_absent.
Qed.

Lemma verify_otp_success_deletes env (now : Z) tok e code s :
  success <$> (verify_otp env now tok (JString e) code s).2 = Some true ->
  (verify_otp env now tok (JString e) code s).1 = delete e s.
Proof.
  unfold verify_otp. cbn.
  destruct (authorized env e); cbn; [|discriminate].
  destruct (s !! e) as [stored|]; [|discriminate].
  destruct (now >? expires stored); cbn; [discriminate|].
  by destruct (differs (otp stored) code).
Qed.

(** A verify-otp request whose e-mail is a string is always answered. *)
Lemma verify_otp_string_answered env (now : Z) tok e code s :
  is_Some (verify_otp env now tok (JString e) code s).2.
Proof.
  unfold verify_otp. cbn.
  destruct (authorized env e); cbn; [|done].
  destruct (s !! e) as [stored|]; [|done].
  destruct (now >? expires stored); [done|].
  by destruct (differs (otp stored) code).
Qed.

(** [C6] After a successful verify-otp the entry of that e-mail is gone
    from the store, and it stays gone while only verify-otp requests
    arrive: repeating the request with the same e-mail and the same code
    is then answered with a refusal, at any time and after any such
    requests in between. *)
Theorem otp_single_use env (now : Z) tok e code s :
  success <$> (verify_otp env now tok (JString e) code s).2 = Some true ->
  ((verify_otp env now tok (JString e) code s).1 : gmap string entry) !! e = None /\
  forall (between : list call) (now' : Z) tok',
    Forall (fun c => is_send c = false) between ->
    success <$>
      (verify_otp env now' tok' (JString e) code
         (serve_all env between (verify_otp env now tok (JString e) code s).1)).2
    = Some false.
Proof.
  intros Hok. rewrite (verify_otp_success_deletes _ _ _ _ _ _ Hok).
  assert (delete e s !! e = None) as Hgone by apply lookup_delete_eq.
  split; [done|]. intros between now' tok' Hbetween.
  pose proof (serve_verifications_absent env between _ e Hbetween Hgone) as Hstill.
  destruct (verify_otp_string_answered env now' tok' e code
              (serve_all env between (delete e s))) as [answer Hanswer].
  rewrite Hanswer. cbn. f_equal.
  apply not_true_is_false. intros Hagain.
  assert (success <$> (verify_otp env now' tok' (JString e) code
                         (serve_all env between (delete e s))).2 = Some true)
    as Htrue by (rewrite Hanswer; cbn; by f_equal).
  apply verify_otp_answer in Htrue
    as (e' & stored & [= <-] & _ & Hfound & _).
  congruence.
Qed.

End Otp.

Section OtpIssue.

Import Server.

Implicit Types (env : option string) (s : gmap string entry).
Implicit Types (email code : json) (e tok : string).

Lemma digit_is_digit d : 0 <= d < 10 -> is_digit (digit d) = true.
Proof.
  intros Hd.
  assert (d = 0 \/ d = 1 \/ d = 2 \/ d = 3 \/ d = 4 \/ d = 5 \/ d = 6 \/
          d = 7 \/ d = 8 \/ d = 9) as Hcases by lia.
  repeat (destruct Hcases as [->|Hcases]; [reflexivity|]). by subst.
Qed.

(** Six steps of [digits] on a number with six decimal digits. *)
Lemma digits_six (fuel : nat) n :
  100000 <= n <= 999999 -> (6 <= fuel)%nat ->
  digits fuel n EmptyString =
    String (digit (n / 10 / 10 / 10 / 10 / 10 mod 10))
   (String (digit (n / 10 / 10 / 10 / 10 mod 10))
   (String (digit (n / 10 / 10 / 10 mod 10))
   (String (digit (n / 10 / 10 mod 10))
   (String (digit (n / 10 mod 10))
   (String (digit (n mod 10)) EmptyString))))).
Proof.
  intros Hn Hfuel.
  do 6 (destruct fuel as [|fuel]; [lia|]). clear Hfuel.
  assert ((n / 10 =? 0) = false) as H1
    by (apply Z.eqb_neq; Z.to_euclidean_division_equations; lia).
  assert ((n / 10 / 10 =? 0) = false) as H2
    by (apply Z.eqb_neq; Z.to_euclidean_division_equations; lia).
  assert ((n / 10 / 10 / 10 =? 0) = false) as H3
    by (apply Z.eqb_neq; Z.to_euclidean_division_equations; lia).
  assert ((n / 10 / 10 / 10 / 10 =? 0) = false) as H4
    by (apply Z.eqb_neq; Z.to_euclidean_division_equations; lia).
  assert ((n / 10 / 10 / 10 / 10 / 10 =? 0) = false) as H5
    by (apply Z.eqb_neq; Z.to_euclidean_division_equations; lia).
  assert ((n / 10 / 10 / 10 / 10 / 10 / 10 =? 0) = true) as H6
    by (apply Z.eqb_eq; Z.to_euclidean_division_equations; lia).
  cbn [digits]. by rewrite H1, H2, H3, H4, H5, H6.
Qed.

Lemma toString_six_digits n :
  100000 <= n <= 999999 ->
  String.length (toString n) = 6%nat /\ numeric (toString n) = true.
Proof.
  intros Hn. unfold toString.
  destruct (Z.ltb_spec n 0); [lia|].
  assert (16 <= Z.log2 n) as Hlog
    by (change 16 with (Z.log2 65536); apply Z.log2_le_mono; lia).
  rewrite digits_six by lia.
  split; [reflexivity|]. cbn [numeric].
  rewrite !digit_is_digit; [done|..];
    apply Z.mod_pos_bound; lia.
Qed.

Lemma generate_range (random : Q) :
  (0 <= random)%Q -> (random < 1)%Q ->
  100000 <= Qfloor (100000 + random * 900000) <= 999999.
Proof.
  intros Hlo Hhi.
  pose proof (Qfloor_le (100000 + random * 900000)) as Hfloor.
  pose proof (Qlt_floor (100000 + random * 900000)) as Hceil.
  split.
  - apply Z.lt_succ_r. unfold Z.succ. rewrite Zlt_Qlt.
    apply Qle_lt_trans with (100000 + random * 900000)%Q; [|exact Hceil].
    change (inject_Z 100000) with 100000%Q. lra.
  - apply Z.lt_succ_r. change (Z.succ 999999) with 1000000. rewrite Zlt_Qlt.
    apply Qle_lt_trans with (100000 + random * 900000)%Q; [exact Hfloor|].
    change (inject_Z 1000000) with 1000000%Q. lra.
Qed.

Lemma send_otp_authorized env (now : Z) (random : Q) brevo e s :
  authorized env e = true ->
  (send_otp env now random brevo (JString e) s).1 =
    <[e := {| otp := generate random; expires := now + 300000 |}]> s.
Proof.
  intros Hauth. unfold send_otp. rewrite Hauth. cbn.
  change (5 * 60 * 1000) with 300000.
  by repeat case_match.
Qed.

(** The handler sends no answer exactly when the log line throws, and the
    store is then as it was. *)
Lemma send_otp_unanswered env (now : Z) (random : Q) brevo email s :
  ((send_otp env now random brevo email s).2 = None <-> printable email = false) /\
  (printable email = false -> (send_otp env now random brevo email s).1 = s).
Proof.
  unfold send_otp. destruct (printable email) eqn:Hp; cbn.
  - split; [|discriminate]. split; [|discriminate].
    destruct email as [| | | |e|items|members]; try discriminate.
    destruct (authorized env e); cbn; [|discriminate].
    by repeat case_match.
  - done.
Qed.

(** What holds of the send-otp requests that reach the [try] statement.
    One whose e-mail is not the admin e-mail up to letter case is answered
    with [success: false] and leaves the store as it was.  For the admin
    e-mail the code generated from a random number in [0, 1) is the
    decimal string of an integer between 100000 and 999999, six digits
    long, and it is stored under the e-mail of the request with expiry
    [Date.now()] + 300,000 ms, the other entries of the store staying
    put. *)
Lemma send_otp_spec env (now : Z) (random : Q) brevo email s :
  (printable email = true ->
   (forall e, email = JString e ->
      toLowerCase e <> toLowerCase (ADMIN_EMAIL env)) ->
   (send_otp env now random brevo email s).1 = s /\
   success <$> (send_otp env now random brevo email s).2 = Some false) /\
  (forall e, email = JString e ->
     toLowerCase e = toLowerCase (ADMIN_EMAIL env) ->
     (0 <= random)%Q -> (random < 1)%Q ->
     exists n,
       100000 <= n <= 999999 /\
       String.length (toString n) = 6%nat /\
       numeric (toString n) = true /\
       ((send_otp env now random brevo email s).1 : gmap string entry) !! e
         = Some {| otp := toString n; expires := now + 300000 |} /\
       forall e', e' <> e ->
         ((send_otp env now random brevo email s).1 : gmap string entry) !! e'
           = s !! e').
Proof.
  split.
  - intros Hp Hother. unfold send_otp. rewrite Hp. cbn.
    destruct email as [| | | |e|items|members]; try done.
    destruct (authorized env e) eqn:Hauth; [|done].
    apply authorized_iff in Hauth. by destruct (Hother e).
  - intros e -> Hadmin Hlo Hhi.
    apply authorized_iff in Hadmin.
    rewrite send_otp_authorized by done.
    exists (Qfloor (100000 + random * 900000)).
    pose proof (generate_range random Hlo Hhi) as Hrange.
    destruct (toString_six_digits _ Hrange) as [Hlen Hnum].
    repeat split; try done; try lia.
    + apply lookup_insert_eq.
    + intros e' Hne. by rewrite lookup_insert_ne.
Qed.

(** [C7] A send-otp request whose e-mail field is the object
    [{"toString": 0}], which is not the admin e-mail: the log line in front
    of the [try] statement throws on the conversion of the e-mail to a
    string, so that the handler sends no answer at all, in particular not
    the [success: false] of its [catch] block; the store is left as it
    was.  An e-mail that is a number reaches the [try] statement and is
    refused there. *)
Theorem send_otp_without_answer :
  let email := JObject [("toString", JNumber 0)] in
  printable email = false /\
  send_otp None 1000 (1 # 2) (Some 201) email ∅ = (∅, None) /\
  send_otp None 1000 (1 # 2) (Some 201) (JNumber 7) ∅
    = (∅, Some (refuse "Failed to send OTP. Please try again.")).
Proof. by vm_compute. Qed.

Lemma otp_single_use_witness :
  success <$>
    (verify_otp None 3000 "t2" (JString Sample.admin) (JString "550000")
       (serve_all None
          [ VerifyOtp 2500 "t1" (JString Sample.admin) (JString "123456") ]
          (verify_otp None 2000 "t0" (JString Sample.admin) (JString "550000")
             {[ Sample.admin := {| otp := "550000"; expires := 301000 |} ]}).1)).2
  = Some false.
Proof.
  refine (proj2 (otp_single_use None 2000 "t0" Sample.admin (JString "550000")
                   {[ Sample.admin := {| otp := "550000"; expires := 301000 |} ]} _)
            [ VerifyOtp 2500 "t1" (JString Sample.admin) (JString "123456") ]
            3000 "t2" _).
  - reflexivity.
  - repeat constructor.
Defined.

(** The pairs a map holds under one key are at most one. *)
Lemma one_entry_per_key s e :
  (length (filter (fun kv => kv.1 = e) (map_to_list s)) <= 1)%nat.
Proof.
  pose proof (NoDup_fst_map_to_list s) as Hnd.
  induction (map_to_list s) as [|[k v] l IH]; [cbn; lia|].
  rewrite fmap_cons in Hnd. apply NoDup_cons in Hnd as [Hk Hnd].
  rewrite filter_cons. case_decide as Hke; [|by apply IH].
  cbn in Hke. subst k.
  assert (filter (fun kv : string * entry => kv.1 = e) l = []) as ->; [|cbn; lia].
  destruct (filter _ l) as [|[k' v'] l'] eqn:Hf; [done|]. exfalso.
  assert ((k', v') ∈ filter (fun kv : string * entry => kv.1 = e) l) as Hin
    by (rewrite Hf; left).
  apply list_elem_of_filter in Hin as [Hk' Hin]. cbn in Hk'. subst k'.
  apply Hk. apply list_elem_of_fmap. by exists (e, v').
Qed.

(** [C10, as amended] The store holds at most one entry under an e-mail
    string (the key is the string of the request, compared exactly).  A
    send-otp for the admin e-mail replaces whatever entry was stored under
    that string by the new code and expiry; afterwards a code other than
    the new one is refused under that e-mail, so a previously issued
    code, unexpired or not, no longer verifies unless the newer code
    happens to be the same string. *)
Theorem newer_otp_replaces_entry env (now : Z) (random : Q) brevo e s :
  toLowerCase e = toLowerCase (ADMIN_EMAIL env) ->
  let s' : gmap string entry :=
    (send_otp env now random brevo (JString e) s).1 in
  (length (filter (fun kv => kv.1 = e) (map_to_list s')) <= 1)%nat /\
  s' !! e = Some {| otp := generate random; expires := now + 300000 |} /\
  (forall (now' : Z) tok code,
     code <> JString (generate random) ->
     success <$> (verify_otp env now' tok (JString e) code s').2 = Some false) /\
  (forall old (now' : Z) tok,
     s !! e = Some old -> otp old <> generate random ->
     success <$> (verify_otp env now' tok (JString e) (JString (otp old)) s').2
       = Some false).
Proof.
  intros Hadmin. cbv zeta. apply authorized_iff in Hadmin.
  rewrite send_otp_authorized by done.
  assert (forall (now' : Z) tok code,
            code <> JString (generate random) ->
            success <$> (verify_otp env now' tok (JString e) code
              (<[e := {| otp := generate random; expires := now + 300000 |}]> s)).2
            = Some false) as Hother.
  { intros now' tok code Hcode.
    destruct (verify_otp_string_answered env now' tok e code
                (<[e := {| otp := generate random; expires := now + 300000 |}]> s))
      as [answer Hanswer].
    rewrite Hanswer. cbn. f_equal.
    apply not_true_is_false. intros Hok.
    assert (success <$> (verify_otp env now' tok (JString e) code
              (<[e := {| otp := generate random; expires := now + 300000 |}]> s)).2
            = Some true) as Htrue by (rewrite Hanswer; cbn; by f_equal).
    apply verify_otp_answer in Htrue
      as (e' & stored & [= <-] & _ & Hfound & _ & ->).
    rewrite lookup_insert_eq in Hfound. injection Hfound as <-. by cbn in Hcode. }
  split; [apply one_entry_per_key|]. split; [apply lookup_insert_eq|].
  split; [exact Hother|].
  intros old now' tok _ Hdiff. apply Hother. congruence.
Qed.

Lemma newer_otp_replaces_entry_witness :
  success <$>
    (verify_otp None 3000 "t" (JString Sample.admin) (JString "550000")
       (send_otp None 2000 (1 # 4) (Some 201) (JString Sample.admin)
          {[ Sample.admin := {| otp := "550000"; expires := 301000 |} ]}).1).2
  = Some false.
Proof.
  refine (proj2 (proj2 (proj2
            (newer_otp_replaces_entry None 2000 (1 # 4) (Some 201) Sample.admin
               {[ Sample.admin := {| otp := "550000"; expires := 301000 |} ]} _)))
            {| otp := "550000"; expires := 301000 |} 3000 "t" _ _).
  - reflexivity.
  - reflexivity.
  - by vm_compute.
Defined.

(** [C10, counterexample] Two send-otp requests for the admin e-mail that
    draw the same random number issue the same code twice: the code of the
    first request, 550000, still verifies after the second request has
    replaced the entry. *)
Lemma reissued_code_still_verifies :
  let first :=
    (send_otp None 1000 (1 # 2) (Some 201) (JString Sample.admin) ∅).1 in
  let second :=
    (send_otp None 2000 (1 # 2) (Some 201) (JString Sample.admin) first).1 in
  (first : gmap string entry) !! Sample.admin
    = Some {| otp := "550000"; expires := 301000 |} /\
  (second : gmap string entry) !! Sample.admin
    = Some {| otp := "550000"; expires := 302000 |} /\
  verify_otp None 3000 "t" (JString Sample.admin) (JString "550000") second
    = (∅, Some {| success := true; message := "Login successful";
                  token := Some "t" |}).
Proof. by vm_compute. Qed.

End OtpIssue.

(** * Further properties of the handlers *)

(** The value of a column a written-out SET list names, or does not. *)
Ltac written := apply col_assign_set; [by_computation|among_columns].
Ltac kept := apply col_assign_other; among_columns.

(** The same once the SET list is unfolded into insertions. *)
Ltac column_read :=
  intros;
  repeat match goal with H : _ \/ _ |- _ => destruct H end;
  simplify_eq; try done; unfold col; by simplify_map_eq.

Section BookingRows.

Import Main.

Implicit Types (db : database) (r : gmap string value) (id status : string).

(** What a request does to the booking rows: each row is kept, or
    rewritten by the SET list of the request's statement. *)
Lemma handle_rows req db :
  Forall2
    (fun r r' =>
       r' = r \/
       exists sets, r' = assign sets r /\
         match req with
         | UpdateBookingStatus now _ status reason =>
             sets = status_assignments now status reason
         | MarkPaymentAsPaid now _ =>
             sets = [ ("payment_status", Text "paid");
                      ("updated_at", Timestamp now) ]
         | AddServiceCharge now _ description _ charge total =>
             sets = [ ("charge_description", param description);
                      ("service_charge", Decimal charge);
                      ("total_price", Decimal total);
                      ("updated_at", Timestamp now) ]
         | CompleteBooking now _ _ feedback =>
             sets = [ ("booking_status", Text "completed");
                      ("event_feedback", param feedback);
                      ("completion_date", Timestamp now);
                      ("updated_at", Timestamp now) ]
         | SetPaymentDeadline date_now now _ =>
             sets = [ ("payment_deadline", Timestamp (date_now + 72000000));
                      ("updated_at", Timestamp now) ]
         | CheckExpiredBookings now => sets = cancel_expired now
         | _ => False
         end)
    (bookings db) (bookings (db_after (handle req db))).
Proof.
  assert (forall (t : list (gmap string value)) (R : _ -> _ -> Prop),
            (forall r, R r r) -> Forall2 R t t) as Hsame.
  { intros t R HR. induction t; constructor; auto. }
  assert (forall ok missing schema sets w ret (Q : _ -> Prop),
            Q sets ->
            Forall2 (fun r r' => r' = r \/ exists s, r' = assign s r /\ Q s)
              (bookings db)
              (bookings (db_after (first_row with_bookings ok missing
                 (update schema sets w ret (bookings db)) db)))) as Hone.
  { intros ok missing schema sets w ret Q HQ.
    destruct (update_failed_or_done schema sets w ret (bookings db))
      as [[msg ->]| ->].
    - cbn. apply Hsame. auto.
    - match goal with
      | |- context [first_row ?f ?k ?m (Done (?t, ?rows)) db] =>
          destruct (first_row_done f k m t rows db) as (-> & _ & _)
      end.
      cbn [with_bookings bookings]. apply Forall2_fmap_r.
      apply Hsame. intros r. cbn. destruct (selected w r); eauto. }
  destruct req; cbn [handle].
  - by apply Hone.
  - by apply Hone.
  - by apply Hone.
  - by apply Hone.
  - by apply Hone.
  - unfold check_expired_bookings.
    destruct (update_failed_or_done bookings_columns (cancel_expired now)
                (expired now) (Columns ["id"; "full_name"; "user_email"])
                (bookings db)) as [[msg ->]| ->].
    + cbn. apply Hsame. auto.
    + match goal with
      | |- context [filter ?P ?l] => destruct (filter P l)
      end; cbn [db_after with_bookings bookings fmap list_fmap];
        apply Forall2_fmap_r; apply Hsame; intros r;
        change ((fun r' => r' = r \/
                   exists sets, r' = assign sets r /\ sets = cancel_expired now)
                  (if selected (expired now) r
                   then assign (cancel_expired now) r else r));
        (destruct (selected (expired now) r); [right; by eexists|by left]).
  - unfold update_staff_status.
    destruct (update _ _ _ _ _) as [[t' [|r rows]]|msg]; cbn; apply Hsame; auto.
  - unfold delete_staff. rewrite first_row_elsewhere by done. apply Hsame. auto.
  - unfold update_user_status. rewrite first_row_elsewhere by done.
    apply Hsame. auto.
Qed.


Lemma run_snoc reqs req db :
  run (reqs ++ [req]) db = db_after (handle req (run reqs db)).
Proof. unfold run. by rewrite foldl_app. Qed.

(** [X1] No handler writes a booking column other than the eleven its
    statements name, and no handler adds, removes or reorders booking
    rows: after any run of requests the table has the same rows in the
    same order as far as every other column goes, among them id, user_id,
    full_name, package_price, event_rating and created_at. *)
Theorem untouched_columns_survive reqs db (c : string) :
  c ∉ [ "booking_status"; "cancellation_reason"; "approval_date";
        "updated_at"; "payment_status"; "charge_description";
        "service_charge"; "total_price"; "event_feedback";
        "completion_date"; "payment_deadline" ] ->
  (fun r : gmap string value => r !! c) <$> bookings (run reqs db)
  = (fun r : gmap string value => r !! c) <$> bookings db.
Proof.
  intros Hc.
  induction reqs as [|req reqs IH] using rev_ind; [done|].
  rewrite run_snoc, <- IH.
  generalize (run reqs db). clear IH. intros db0.
  pose proof (handle_rows req db0) as Hrows.
  induction Hrows as [|r r' t t' Hr _ IH]; [done|].
  rewrite !fmap_cons, IH. f_equal.
  destruct Hr as [->|(sets & -> & Hsets)]; [done|].
  apply lookup_assign_other.
  destruct req; try done; subst sets;
    [unfold status_assignments;
     destruct (String.eqb status "rejected" && truthy cancellationReason);
       [|destruct (String.eqb status "approved")]|..];
    among_columns.
Qed.

Lemma untouched_columns_survive_witness :
  (fun r : gmap string value => r !! "id")
    <$> bookings
          (run [ UpdateBookingStatus 3000 "b-2" "approved" None;
                 SetPaymentDeadline 3001 3002 "b-2";
                 AddServiceCharge 3500 "b-2" (Some "Delivery") 500 500 9500;
                 MarkPaymentAsPaid 4000 "b-2";
                 CompleteBooking 6000 "b-2" None None ] Sample.db)
  = [ Some (Uuid "b-1"); Some (Uuid "b-2") ].
Proof.
  rewrite (untouched_columns_survive _ Sample.db "id"); [reflexivity|].
  among_columns.
Defined.

(** [X2] No handler takes a payment back: a booking whose payment_status
    is 'paid' is still 'paid' after any run of requests. *)
Theorem paid_stays_paid reqs db (i : nat) r :
  bookings db !! i = Some r ->
  col "payment_status" r = Text "paid" ->
  exists r', bookings (run reqs db) !! i = Some r' /\
             col "payment_status" r' = Text "paid".
Proof.
  intros Hr Hpaid.
  induction reqs as [|req reqs IH] using rev_ind; [eauto|].
  destruct IH as (r1 & Hr1 & Hpaid1). rewrite run_snoc.
  destruct (Forall2_lookup_l _ _ _ _ _ (handle_rows req (run reqs db)) Hr1)
    as (r' & Hr' & Hstep).
  exists r'. split; [done|].
  destruct Hstep as [->|(sets & -> & Hsets)]; [done|].
  destruct req; try done; subst sets.
  - rewrite col_assign_other; [done|].
    unfold status_assignments.
    destruct (String.eqb status "rejected" && truthy cancellationReason);
      [|destruct (String.eqb status "approved")]; among_columns.
  - apply col_assign_set; [by_computation|among_columns].
  - rewrite col_assign_other; [done|among_columns].
  - rewrite col_assign_other; [done|among_columns].
  - rewrite col_assign_other; [done|among_columns].
  - rewrite col_assign_other; [done|among_columns].
Qed.

Lemma paid_stays_paid_witness :
  exists r',
    bookings
      (run [ UpdateBookingStatus 5000 "b-2" "rejected" (Some "Double booking");
             CheckExpiredBookings 6000 ]
         (db_after (mark_payment_as_paid 4000 "b-2" Sample.db))) !! 1%nat
      = Some r' /\
    col "payment_status" r' = Text "paid".
Proof.
  eapply paid_stays_paid; reflexivity.
Defined.

(** The rows of a table after an accepted single-row statement. *)
Lemma rewritten_lookup w sets (t : list (gmap string value)) (i : nat) r :
  t !! i = Some r ->
  ((fun r => if selected w r then assign sets r else r) <$> t) !! i
  = Some (if selected w r then assign sets r else r).
Proof. intros Hr. by rewrite list_lookup_fmap, Hr. Qed.

(** An accepted statement of a booking handler that selects by id: the
    row with the id is rewritten, the others are kept, and the answer is
    success with a rewritten row that carries the id. *)
Lemma booking_handler_outcome sets id missing db (i : nat) r :
  unknown_column bookings_columns
    (sets.*1 ++ cond_columns (by_id id) ++ returning_columns Star) = None ->
  bookings db !! i = Some r -> has_id id r ->
  let o := first_row with_bookings BookingOk missing
             (update bookings_columns sets (by_id id) Star (bookings db)) db in
  bookings (db_after o) !! i = Some (assign sets r) /\
  (forall (j : nat) r1, bookings db !! j = Some r1 -> ~ has_id id r1 ->
     bookings (db_after o) !! j = Some r1) /\
  staff (db_after o) = staff db /\
  usertable (db_after o) = usertable db /\
  (exists r0, r0 ∈ bookings db /\ has_id id r0 /\
     reply o = BookingOk (assign sets r0)) /\
  outbox o = [].
Proof.
  intros Hok Hr Hid. cbv zeta. rewrite update_accepted by done.
  match goal with
  | |- context [first_row ?f ?k ?m (Done (?t, ?rows)) db] =>
      destruct (first_row_done f k m t rows db) as (-> & -> & ->)
  end.
  cbn [with_bookings bookings staff usertable].
  assert (r ∈ bookings db) as Hin by by eapply list_elem_of_lookup_2.
  destruct (filter_by_id_head id (bookings db) r Hin Hid)
    as (r0 & rest & -> & Hin0 & Hid0).
  split; [|split; [|split; [|split; [|split]]]]; try done.
  - rewrite (rewritten_lookup _ _ _ _ _ Hr).
    by rewrite (proj2 (selected_by_id id r) Hid).
  - intros j r1 Hr1 Hno. rewrite (rewritten_lookup _ _ _ _ _ Hr1).
    by rewrite not_selected_by_id.
  - exists r0. by repeat split.
Qed.

Lemma booking_handler_db sets id missing db :
  unknown_column bookings_columns
    (sets.*1 ++ cond_columns (by_id id) ++ returning_columns Star) = None ->
  db_after (first_row with_bookings BookingOk missing
              (update bookings_columns sets (by_id id) Star (bookings db)) db)
  = with_bookings
      ((fun r => if selected (by_id id) r then assign sets r else r)
         <$> bookings db) db.
Proof.
  intros Hok. rewrite update_accepted by done.
  match goal with
  | |- context [first_row ?f ?k ?m (Done (?t, ?rows)) db] =>
      by destruct (first_row_done f k m t rows db) as (-> & _ & _)
  end.
Qed.

(** [X3] mark-payment-as-paid on the id of an existing booking sets
    payment_status to 'paid' and updated_at to NOW() and nothing else,
    whatever the booking's status is (it asks for no approval and no open
    deadline); other rows and tables are untouched and the answer is
    success.  Paying again only moves updated_at: two calls leave the
    database as the later call alone would. *)
Theorem mark_payment_as_paid_spec (now : Z) id db (i : nat) r :
  bookings db !! i = Some r -> has_id id r ->
  let o := mark_payment_as_paid now id db in
  (exists r',
     bookings (db_after o) !! i = Some r' /\
     col "payment_status" r' = Text "paid" /\
     col "updated_at" r' = Timestamp now /\
     forall c, c <> "payment_status" -> c <> "updated_at" -> r' !! c = r !! c) /\
  (forall (j : nat) r1, bookings db !! j = Some r1 -> ~ has_id id r1 ->
     bookings (db_after o) !! j = Some r1) /\
  staff (db_after o) = staff db /\
  usertable (db_after o) = usertable db /\
  success (reply o) = true /\
  (forall now0 : Z,
     db_after (mark_payment_as_paid now id
                 (db_after (mark_payment_as_paid now0 id db)))
     = db_after o).
Proof.
  intros Hr Hid. cbv zeta. unfold mark_payment_as_paid.
  destruct (booking_handler_outcome
              [ ("payment_status", Text "paid"); ("updated_at", Timestamp now) ]
              id "Booking not found" db i r eq_refl Hr Hid)
    as (Hrow & Hothers & Hstaff & Husers & (r0 & _ & _ & Hreply) & _).
  split; [|split; [|split; [|split; [|split]]]]; try done.
  - eexists. split; [exact Hrow|]. cbn. unfold col.
    split; [by simplify_map_eq|]. split; [by simplify_map_eq|].
    intros c ? ?. by rewrite !lookup_insert_ne.
  - by rewrite Hreply.
  - intros now0. rewrite !booking_handler_db by done.
    unfold with_bookings. cbn. f_equal.
    rewrite <- list_fmap_compose. apply list_fmap_ext. intros _ r1 _. cbn.
    destruct (selected (by_id id) r1) eqn:Hsel; [|by rewrite Hsel].
    assert (selected (by_id id)
              (<["updated_at":=Timestamp now0]>
                 (<["payment_status":=Text "paid"]> r1)) = true) as ->.
    { apply selected_by_id. apply selected_by_id in Hsel.
      unfold has_id, col in *. by rewrite !lookup_insert_ne. }
    apply map_eq. intros c.
    destruct (decide (c = "updated_at")) as [->|];
      [by rewrite !lookup_insert_eq|].
    rewrite !(lookup_insert_ne _ "updated_at") by done.
    destruct (decide (c = "payment_status")) as [->|];
      [by rewrite !lookup_insert_eq|].
    by rewrite !lookup_insert_ne.
Qed.

Lemma mark_payment_as_paid_spec_witness :
  exists r',
    bookings (db_after (mark_payment_as_paid 4000 "b-2" Sample.db)) !! 1%nat
      = Some r' /\
    col "payment_status" r' = Text "paid" /\
    col "booking_status" r' = Text "pending".
Proof.
  destruct (mark_payment_as_paid_spec 4000 "b-2" Sample.db 1 Sample.waiting
              eq_refl eq_refl) as ((r' & Hr' & Hpaid & _ & Hframe) & _).
  exists r'. split; [exact Hr'|]. split; [exact Hpaid|].
  unfold col. rewrite Hframe; [reflexivity|discriminate|discriminate].
Defined.

(** [X4] complete-booking on the id of an existing booking marks it
    'completed' whatever its status and payment were, stores the feedback
    (NULL when none is given), stamps completion_date and updated_at with
    NOW(), and changes no other column; in particular event_rating keeps
    its value, and the rating argument has no influence on the outcome. *)
Theorem complete_booking_spec (now : Z) id (rating : option Z)
    (feedback : option string) db (i : nat) r :
  bookings db !! i = Some r -> has_id id r ->
  let o := complete_booking now id rating feedback db in
  (exists r',
     bookings (db_after o) !! i = Some r' /\
     col "booking_status" r' = Text "completed" /\
     col "event_feedback" r' = param feedback /\
     col "completion_date" r' = Timestamp now /\
     col "updated_at" r' = Timestamp now /\
     forall c,
       c ∉ ["booking_status"; "event_feedback"; "completion_date"; "updated_at"] ->
       r' !! c = r !! c) /\
  success (reply o) = true /\
  (forall rating', complete_booking now id rating' feedback db = o).
Proof.
  intros Hr Hid. cbv zeta. unfold complete_booking.
  destruct (booking_handler_outcome
              [ ("booking_status", Text "completed");
                ("event_feedback", param feedback);
                ("completion_date", Timestamp now);
                ("updated_at", Timestamp now) ]
              id "Booking not found" db i r eq_refl Hr Hid)
    as (Hrow & _ & _ & _ & (r0 & _ & _ & Hreply) & _).
  split; [|split]; [|by rewrite Hreply|done].
  eexists. split; [exact Hrow|].
  repeat split; try (apply col_assign_set; [by_computation|among_columns]).
  intros c Hc. apply lookup_assign_other. among_columns.
Qed.

Lemma complete_booking_spec_witness :
  exists r',
    bookings (db_after (complete_booking 6000 "b-2" (Some 5) None Sample.db))
      !! 1%nat = Some r' /\
    col "booking_status" r' = Text "completed" /\
    col "event_feedback" r' = Null /\
    col "payment_status" r' = Text "unpaid".
Proof.
  destruct (complete_booking_spec 6000 "b-2" (Some 5) None Sample.db 1
              Sample.waiting eq_refl eq_refl)
    as ((r' & Hr' & Hstatus & Hfeedback & _ & _ & Hframe) & _).
  exists r'. split; [exact Hr'|]. split; [exact Hstatus|].
  split; [exact Hfeedback|].
  unfold col. rewrite Hframe; [reflexivity|among_columns].
Defined.

(** [X5] add-service-charge on the id of an existing booking stores the
    description, the service charge and the total exactly as passed in
    and stamps updated_at; the total is not recomputed from package_price,
    which keeps its value like every other column, and the amount argument
    has no influence on the outcome. *)
Theorem add_service_charge_spec (now : Z) id (description : option string)
    (amount charge total : Q) db (i : nat) r :
  bookings db !! i = Some r -> has_id id r ->
  let o := add_service_charge now id description amount charge total db in
  (exists r',
     bookings (db_after o) !! i = Some r' /\
     col "charge_description" r' = param description /\
     col "service_charge" r' = Decimal charge /\
     col "total_price" r' = Decimal total /\
     col "updated_at" r' = Timestamp now /\
     forall c,
       c ∉ ["charge_description"; "service_charge"; "total_price"; "updated_at"] ->
       r' !! c = r !! c) /\
  success (reply o) = true /\
  (forall amount', add_service_charge now id description amount' charge total db = o).
Proof.
  intros Hr Hid. cbv zeta. unfold add_service_charge.
  destruct (booking_handler_outcome
              [ ("charge_description", param description);
                ("service_charge", Decimal charge);
                ("total_price", Decimal total);
                ("updated_at", Timestamp now) ]
              id "Booking not found" db i r eq_refl Hr Hid)
    as (Hrow & _ & _ & _ & (r0 & _ & _ & Hreply) & _).
  split; [|split]; [|by rewrite Hreply|done].
  eexists. split; [exact Hrow|].
  repeat split; try (apply col_assign_set; [by_computation|among_columns]).
  intros c Hc. apply lookup_assign_other. among_columns.
Qed.

Lemma add_service_charge_spec_witness :
  exists r',
    bookings
      (db_after (add_service_charge 3500 "b-2" (Some "Delivery") 500 500 1
                   Sample.db)) !! 1%nat = Some r' /\
    col "total_price" r' = Decimal 1 /\
    col "package_price" r' = Decimal 9000.
Proof.
  destruct (add_service_charge_spec 3500 "b-2" (Some "Delivery") 500 500 1
              Sample.db 1 Sample.waiting eq_refl eq_refl)
    as ((r' & Hr' & _ & _ & Htotal & _ & Hframe) & _).
  exists r'. split; [exact Hr'|]. split; [exact Htotal|].
  unfold col. rewrite Hframe; [reflexivity|among_columns].
Defined.

(** [X6] What update-booking-status leaves in an existing booking: the
    status it was given, whatever the previous status was; a
    cancellation_reason only for status 'rejected' with a non-empty
    reason, and NULL in every other case, so that approving, or moving to
    any other status, erases a stored reason; and approval_date = NOW()
    exactly when the status is 'approved'. *)
Theorem update_booking_status_effect (now : Z) id status
    (reason : option string) db (i : nat) r :
  bookings db !! i = Some r -> has_id id r ->
  exists r',
    bookings (db_after (update_booking_status now id status reason db)) !! i
      = Some r' /\
    col "booking_status" r' = Text status /\
    col "updated_at" r' = Timestamp now /\
    (forall text, status = "rejected" -> reason = Some text -> text <> "" ->
       col "cancellation_reason" r' = Text text) /\
    (status <> "rejected" \/ reason = None \/ reason = Some "" ->
       col "cancellation_reason" r' = Null) /\
    (status = "approved" -> col "approval_date" r' = Timestamp now) /\
    (status <> "approved" -> col "approval_date" r' = col "approval_date" r).
Proof.
  intros Hr Hid. unfold update_booking_status.
  destruct (booking_handler_outcome (status_assignments now status reason)
              id "Booking not found" db i r
              (status_assignments_accepted now status reason id) Hr Hid)
    as (Hrow & _).
  eexists. split; [exact Hrow|]. unfold status_assignments.
  destruct (String.eqb_spec status "rejected") as [->|Hrej].
  - destruct reason as [[|a text]|]; simpl; split_and!; column_read.
  - destruct (String.eqb_spec status "approved") as [->|Happ]; simpl;
      split_and!; column_read.
Qed.

Lemma update_booking_status_effect_witness :
  exists r',
    bookings
      (db_after (update_booking_status 7000 "b-1" "pending" (Some "Reopened")
                   Sample.db)) !! 0%nat = Some r' /\
    col "booking_status" r' = Text "pending" /\
    col "cancellation_reason" r' = Null /\
    col "approval_date" r' = Timestamp 500.
Proof.
  destruct (update_booking_status_effect 7000 "b-1" "pending" (Some "Reopened")
              Sample.db 0 Sample.overdue eq_refl eq_refl)
    as (r' & Hr' & Hstatus & _ & _ & Hnull & _ & Hdate).
  exists r'. split; [exact Hr'|]. split; [exact Hstatus|].
  split; [apply Hnull; left; discriminate|].
  rewrite Hdate; [reflexivity|discriminate].
Defined.

(** *** The statement of the expiry sweep *)

(** [X7] The sweep's UPDATE, run on a table that has every column the
    statement names: it selects exactly the rows whose booking_status is
    'approved', whose payment_status is a text other than 'paid' (a NULL
    payment_status is not selected) and whose payment_deadline is an
    instant before NOW(); each selected row gets booking_status
    'cancelled', the 20-hour reason and updated_at = NOW() and keeps its
    other columns; every other row is left as it is; and one row is
    returned per cancelled booking. *)
Theorem sweep_statement_effect (schema : list string) (now : Z)
    (t : list (gmap string value)) :
  unknown_column schema
    ((cancel_expired now).*1 ++ cond_columns (expired now)
       ++ ["id"; "full_name"; "user_email"]) = None ->
  exists t' rows,
    update schema (cancel_expired now) (expired now)
      (Columns ["id"; "full_name"; "user_email"]) t = Done (t', rows) /\
    length rows = length (filter (fun r => selected (expired now) r = true) t) /\
    forall (i : nat) r, t !! i = Some r ->
      (selected (expired now) r = true <->
         col "booking_status" r = Text "approved" /\
         (exists p, col "payment_status" r = Text p /\ p <> "paid") /\
         (exists d, col "payment_deadline" r = Timestamp d /\ d < now)) /\
      exists r', t' !! i = Some r' /\
        (selected (expired now) r = false -> r' = r) /\
        (selected (expired now) r = true ->
           col "booking_status" r' = Text "cancelled" /\
           col "cancellation_reason" r' = Text deadline_reason /\
           col "updated_at" r' = Timestamp now /\
           forall c, c ∉ ["booking_status"; "updated_at"; "cancellation_reason"] ->
             r' !! c = r !! c).
Proof.
  intros Hok. rewrite update_accepted by done.
  eexists _, _. split; [done|]. split; [by rewrite length_fmap|].
  intros i r Hr. split; [apply expired_selected|].
  rewrite (rewritten_lookup _ _ _ _ _ Hr). eexists. split; [done|].
  destruct (selected (expired now) r); split; try done.
  intros _. apply cancel_expired_effect.
Qed.

Lemma sweep_statement_effect_witness :
  exists t' rows,
    update (bookings_columns ++ ["user_email"]) (cancel_expired 2000)
      (expired 2000) (Columns ["id"; "full_name"; "user_email"])
      [Sample.overdue; Sample.waiting] = Done (t', rows) /\
    length rows = 1%nat.
Proof.
  destruct (sweep_statement_effect (bookings_columns ++ ["user_email"]) 2000
              [Sample.overdue; Sample.waiting] eq_refl)
    as (t' & rows & Hdone & Hlen & _).
  exists t', rows. split; [exact Hdone|]. rewrite Hlen. reflexivity.
Defined.

(** [X8] The deadline set-payment-deadline writes gives an approved,
    unpaid booking exactly 20 hours with respect to the sweep's WHERE
    clause: the booking is selected at the instants later than
    Date.now() + 72,000,000 ms and at no other, whatever deadline it had
    before. *)
Theorem deadline_holds_for_20_hours (date_now now0 now : Z) id db (i : nat) r :
  bookings db !! i = Some r -> has_id id r ->
  col "booking_status" r = Text "approved" ->
  (exists p, col "payment_status" r = Text p /\ p <> "paid") ->
  exists r',
    bookings (db_after (set_payment_deadline date_now now0 id db)) !! i = Some r' /\
    (selected (expired now) r' = true <-> date_now + 72000000 < now).
Proof.
  intros Hr Hid Hstatus (p & Hp & Hunpaid). unfold set_payment_deadline.
  destruct (booking_handler_outcome
              [ ("payment_deadline", Timestamp (date_now + 72000000));
                ("updated_at", Timestamp now0) ]
              id "Booking not found" db i r eq_refl Hr Hid) as (Hrow & _).
  eexists. split; [exact Hrow|].
  rewrite expired_selected.
  rewrite !col_assign_other by among_columns.
  rewrite (col_assign_set _ "payment_deadline"
             (Timestamp (date_now + 72000000))) by (by_computation || among_columns).
  split.
  - intros (_ & _ & d & [= <-] & Hd). done.
  - intros Hlate. split; [done|]. split; eauto.
Qed.

Lemma deadline_holds_for_20_hours_witness :
  exists r',
    bookings (db_after (set_payment_deadline 3000 3001 "b-1" Sample.db)) !! 0%nat
      = Some r' /\
    (selected (expired 72003000) r' = true <-> 72003000 < 72003000).
Proof.
  apply (deadline_holds_for_20_hours 3000 3001 72003000 "b-1" Sample.db 0
           Sample.overdue eq_refl eq_refl eq_refl).
  exists "unpaid". split; [reflexivity|discriminate].
Defined.

(** [X9] The sweep's WHERE clause never selects a booking that
    mark-payment-as-paid has marked, at any instant and whatever its
    status and deadline are; nor does it select a row again that its own
    SET clause has rewritten. *)
Theorem paid_or_cancelled_not_selected (now0 now : Z) id db (i : nat) r :
  bookings db !! i = Some r -> has_id id r ->
  (exists r',
     bookings (db_after (mark_payment_as_paid now0 id db)) !! i = Some r' /\
     selected (expired now) r' = false) /\
  selected (expired now) (assign (cancel_expired now0) r) = false.
Proof.
  intros Hr Hid. split.
  - unfold mark_payment_as_paid.
    destruct (booking_handler_outcome
                [ ("payment_status", Text "paid"); ("updated_at", Timestamp now0) ]
                id "Booking not found" db i r eq_refl Hr Hid) as (Hrow & _).
    eexists. split; [exact Hrow|].
    apply not_true_is_false. rewrite expired_selected.
    intros (_ & (p & Hp & Hunpaid) & _).
    rewrite (col_assign_set _ "payment_status" (Text "paid")) in Hp
      by (by_computation || among_columns).
    congruence.
  - apply not_true_is_false. rewrite expired_selected.
    intros (Hstatus & _).
    rewrite (proj1 (cancel_expired_effect now0 r)) in Hstatus. discriminate.
Qed.

Lemma paid_or_cancelled_not_selected_witness :
  exists r',
    bookings (db_after (mark_payment_as_paid 1500 "b-1" Sample.db)) !! 0%nat
      = Some r' /\
    selected (expired 2000) r' = false.
Proof.
  exact (proj1 (paid_or_cancelled_not_selected 1500 2000 "b-1" Sample.db 0
                  Sample.overdue eq_refl eq_refl)).
Defined.

(** *** Staff and users *)

(** A projected row has the listed columns and no other. *)
Lemma lookup_project (cs : list string) r (c : string) :
  project (Columns cs) r !! c = if decide (c ∈ cs) then Some (col c r) else None.
Proof.
  unfold project. induction cs as [|k cs IH].
  - rewrite decide_False by apply not_elem_of_nil. apply lookup_empty.
  - rewrite fmap_cons. cbn [list_to_map foldr]. cbn.
    destruct (decide (c = k)) as [->|Hne].
    + rewrite lookup_insert_eq. rewrite decide_True by left. done.
    + rewrite lookup_insert_ne by done. rewrite IH.
      destruct (decide (c ∈ cs)) as [Hin|Hout].
      * rewrite decide_True by (by right). done.
      * rewrite decide_False; [done|].
        intros [?|?]%elem_of_cons; done.
Qed.

(** [X10] update-staff-status on the id of an existing staff member stores
    the status it is given, keeps a rejection_reason only for status
    'rejected' with a non-empty reason and writes NULL otherwise, and
    touches neither the other columns nor the bookings and users.  One
    approval mail goes out when the status is 'approved', one rejection
    mail carrying the reason when the status is 'rejected' with a
    non-empty reason, and no mail in every other case (so a rejection
    without a reason, or a suspension, is silent). *)
Theorem update_staff_status_effect (now : Z) id status
    (reason : option string) db (i : nat) r :
  staff db !! i = Some r -> has_id id r ->
  let o := update_staff_status now id status reason db in
  (exists r',
     staff (db_after o) !! i = Some r' /\
     col "status" r' = Text status /\
     col "updated_at" r' = Timestamp now /\
     col "rejection_reason" r' =
       (if String.eqb status "rejected" && truthy reason
        then param reason else Null) /\
     forall c, c ∉ ["status"; "rejection_reason"; "updated_at"] ->
       r' !! c = r !! c) /\
  bookings (db_after o) = bookings db /\
  usertable (db_after o) = usertable db /\
  success (reply o) = true /\
  exists r0, r0 ∈ staff db /\ has_id id r0 /\
    (status = "approved" ->
       outbox o = [StaffApprovalEmail (col "email" r0) (col "full_name" r0)]) /\
    (status = "rejected" -> truthy reason = true ->
       outbox o = [StaffRejectionEmail (col "email" r0) (col "full_name" r0)
                     reason]) /\
    (status <> "approved" -> status <> "rejected" \/ truthy reason = false ->
       outbox o = []).
Proof.
  intros Hr Hid. cbv zeta. unfold update_staff_status.
  assert (r ∈ staff db) as Hin by by eapply list_elem_of_lookup_2.
  destruct (filter_by_id_head id (staff db) r Hin Hid)
    as (r0 & rest & Hfilter & Hin0 & Hid0).
  set (sets := if String.eqb status "rejected" && truthy reason
               then _ else _).
  assert (unknown_column staff_columns
            (sets.*1 ++ cond_columns (by_id id) ++ returning_columns Star) = None)
    as Hok.
  { subst sets. by destruct (String.eqb status "rejected" && truthy reason). }
  rewrite update_accepted by done. rewrite Hfilter. cbn.
  split; [|split; [done|split; [done|split; [done|]]]].
  - rewrite (rewritten_lookup _ _ _ _ _ Hr).
    rewrite (proj2 (selected_by_id id r) Hid).
    eexists. split; [done|]. subst sets.
    destruct (String.eqb status "rejected" && truthy reason);
      split_and!; try written; intros c Hc; apply lookup_assign_other;
      among_columns.
  - exists r0. split; [done|]. split; [done|].
    unfold staff_email.
    assert (col "email" (assign sets r0) = col "email" r0 /\
            col "full_name" (assign sets r0) = col "full_name" r0) as [-> ->].
    { subst sets.
      destruct (String.eqb status "rejected" && truthy reason); split; kept. }
    destruct (String.eqb_spec status "approved") as [->|Happ].
    { split_and!; [done|discriminate|done]. }
    destruct (String.eqb_spec status "rejected") as [->|Hrej];
      destruct (truthy reason); cbn; split_and!; try done;
      intros ? [?|?]; done.
Qed.

Lemma update_staff_status_effect_witness :
  outbox (update_staff_status 7000 "s-1" "rejected" None Sample.db) = [] /\
  outbox (update_staff_status 7000 "s-1" "approved" None Sample.db)
    = [StaffApprovalEmail (Text "cook@example.com") (Text "Ben Reyes")].
Proof.
  split.
  - destruct (update_staff_status_effect 7000 "s-1" "rejected" None Sample.db
                0 Sample.cook eq_refl eq_refl)
      as (_ & _ & _ & _ & r0 & _ & _ & _ & _ & Hsilent).
    apply Hsilent; [discriminate|by right].
  - destruct (update_staff_status_effect 7000 "s-1" "approved" None Sample.db
                0 Sample.cook eq_refl eq_refl)
      as (_ & _ & _ & _ & r0 & Hin & Hid & Happroved & _).
    rewrite Happroved by reflexivity.
    apply list_elem_of_singleton in Hin. by subst r0.
Defined.

(** [X11] delete-staff removes every staff row with the id and no other
    row, keeps the remaining rows in their order, and leaves bookings and
    users alone.  When a row had the id the answer is success with that
    row cut down to id, email and full_name; a second delete-staff with
    the same id then answers 'Staff not found' and changes nothing. *)
Theorem delete_staff_spec id db :
  let o := delete_staff id db in
  (forall r, r ∈ staff (db_after o) <-> r ∈ staff db /\ ~ has_id id r) /\
  staff (db_after o) `sublist_of` staff db /\
  bookings (db_after o) = bookings db /\
  usertable (db_after o) = usertable db /\
  (forall r, r ∈ staff db -> has_id id r ->
     exists r0 deleted, r0 ∈ staff db /\ has_id id r0 /\
       reply o = DeletedStaffOk deleted /\
       forall c, deleted !! c =
         if decide (c ∈ ["id"; "email"; "full_name"])
         then Some (col c r0) else None) /\
  delete_staff id (db_after o) =
    {| db_after := db_after o; reply := Error "Staff not found"; outbox := [] |}.
Proof.
  cbv zeta. unfold delete_staff, delete_from.
  change (unknown_column staff_columns _) with (@None string). cbv iota.
  match goal with
  | |- context [first_row ?f ?k ?m (Done (?t, ?rows)) db] =>
      destruct (first_row_done f k m t rows db) as (Hdb & Hreply & _)
  end.
  rewrite Hdb, Hreply. cbn [with_staff staff bookings usertable].
  assert (forall r : gmap string value,
            selected (by_id id) r = false <-> ~ has_id id r) as Hsel.
  { intros r. rewrite <- selected_by_id. by destruct (selected (by_id id) r). }
  split_and!; try done.
  - intros r. rewrite list_elem_of_filter, Hsel. tauto.
  - apply sublist_filter.
  - intros r Hin Hid.
    destruct (filter_by_id_head id (staff db) r Hin Hid)
      as (r0 & rest & -> & Hin0 & Hid0).
    exists r0. eexists. split_and!; try done.
    intros c. apply lookup_project.
  - set (kept := filter (fun r => selected (by_id id) r = false) (staff db)).
    assert (Forall (fun r => selected (by_id id) r = false) kept) as Hkept.
    { apply Forall_forall. intros r Hr.
      by apply list_elem_of_filter in Hr as [? _]. }
    assert (filter (fun r => selected (by_id id) r = false) kept = kept) as ->.
    { clear -Hkept. induction Hkept as [|r l Hr _ IH]; [done|].
      rewrite filter_cons. rewrite decide_True by done. by rewrite IH. }
    assert (filter (fun r => selected (by_id id) r = true) kept = []) as ->.
    { clear -Hkept. induction Hkept as [|r l Hr _ IH]; [done|].
      rewrite filter_cons. rewrite decide_False; [done|]. congruence. }
    cbn. unfold with_staff. cbn. done.
Qed.

(** [X12] update-user-status on the id of an existing user stores the
    status string it is given, without checking it against 'active' and
    'blocked', stamps updated_at and leaves the other columns, the
    bookings and the staff alone; the row it answers with has the columns
    id, name, email, status, avatar_url, created_at and updated_at and no
    other column of the user. *)
Theorem update_user_status_effect (now : Z) id status db (i : nat) r :
  usertable db !! i = Some r -> has_id id r ->
  let o := update_user_status now id status db in
  (exists r',
     usertable (db_after o) !! i = Some r' /\
     col "status" r' = Text status /\
     col "updated_at" r' = Timestamp now /\
     forall c, c <> "status" -> c <> "updated_at" -> r' !! c = r !! c) /\
  bookings (db_after o) = bookings db /\
  staff (db_after o) = staff db /\
  exists r0 user, r0 ∈ usertable db /\ has_id id r0 /\
    reply o = UserOk user /\
    user !! "status" = Some (Text status) /\
    forall c, c ∉ ["id"; "name"; "email"; "status"; "avatar_url";
                   "created_at"; "updated_at"] -> user !! c = None.
Proof.
  intros Hr Hid. cbv zeta. unfold update_user_status.
  assert (r ∈ usertable db) as Hin by by eapply list_elem_of_lookup_2.
  destruct (filter_by_id_head id (usertable db) r Hin Hid)
    as (r0 & rest & Hfilter & Hin0 & Hid0).
  rewrite update_accepted by done. rewrite Hfilter.
  match goal with
  | |- context [first_row ?f ?k ?m (Done (?t, ?rows)) db] =>
      destruct (first_row_done f k m t rows db) as (-> & -> & _)
  end.
  cbn [with_usertable usertable bookings staff fmap list_fmap].
  split_and!; try done.
  - rewrite (rewritten_lookup _ _ _ _ _ Hr).
    rewrite (proj2 (selected_by_id id r) Hid).
    eexists. split; [done|]. split_and!; try written.
    intros c ? ?. apply lookup_assign_other. among_columns.
  - exists r0. eexists. split_and!; try done.
    + rewrite lookup_project. rewrite decide_True by among_columns.
      f_equal. written.
    + intros c Hc. rewrite lookup_project. by rewrite decide_False.
Qed.

Lemma update_user_status_effect_witness :
  exists r',
    usertable (db_after (update_user_status 7000 "u-1" "on holiday" Sample.db))
      !! 0%nat = Some r' /\
    col "status" r' = Text "on holiday".
Proof.
  destruct (update_user_status_effect 7000 "u-1" "on holiday" Sample.db 0
              Sample.customer eq_refl eq_refl)
    as ((r' & Hr' & Hstatus & _) & _).
  exists r'. split; [exact Hr'|exact Hstatus].
Defined.
End BookingRows.

(** * Further properties of the OTP routes *)

Section OtpUse.

Import Server.

Implicit Types (env : option string) (s : gmap string entry).
Implicit Types (email code : json) (e tok : string).

(** [X13] verify-otp puts no limit on attempts: a request with a wrong
    code, made before the entry expires, is refused and leaves the store
    as it was, so after any number of such requests the stored code still
    verifies. *)
Theorem wrong_guesses_keep_the_entry env e stored s
    (guesses : list (Z * string * json)) (now : Z) tok :
  toLowerCase e = toLowerCase (ADMIN_EMAIL env) ->
  s !! e = Some stored ->
  Forall (fun g => g.1.1 <= expires stored /\ g.2 <> JString (otp stored))
    guesses ->
  now <= expires stored ->
  let attempts :=
    (fun g => VerifyOtp g.1.1 g.1.2 (JString e) g.2) <$> guesses in
  Forall (fun g =>
            success <$> (verify_otp env g.1.1 g.1.2 (JString e) g.2 s).2
            = Some false)
    guesses /\
  serve_all env attempts s = s /\
  verify_otp env now tok (JString e) (JString (otp stored))
    (serve_all env attempts s)
  = (delete e s,
     Some {| success := true; message := "Login successful";
             token := Some tok |}).
Proof.
  intros Hadmin Hs Hguesses Hnow. cbv zeta.
  apply authorized_iff in Hadmin.
  assert (forall g : Z * string * json,
            g.1.1 <= expires stored -> g.2 <> JString (otp stored) ->
            verify_otp env g.1.1 g.1.2 (JString e) g.2 s
            = (s, Some (refuse "Invalid OTP. Please check and try again.")))
    as Hwrong.
  { intros [[t k] c] Ht Hc. cbn in *. unfold verify_otp.
    rewrite Hadmin, Hs. cbn.
    destruct (Z.gtb_spec t (expires stored)); [lia|].
    destruct (differs (otp stored) c) eqn:Hd; [done|].
    by apply differs_false in Hd. }
  split; [|split].
  - eapply Forall_impl; [exact Hguesses|].
    intros g [Ht Hc]. by rewrite Hwrong.
  - unfold serve_all.
    induction Hguesses as [|g guesses [Ht Hc] _ IH]; [done|].
    rewrite fmap_cons. cbn [foldl serve]. by rewrite Hwrong.
  - assert (serve_all env
              ((fun g => VerifyOtp g.1.1 g.1.2 (JString e) g.2) <$> guesses) s = s)
      as ->.
    { unfold serve_all.
      induction Hguesses as [|g guesses [Ht Hc] _ IH]; [done|].
      rewrite fmap_cons. cbn [foldl serve]. by rewrite Hwrong. }
    unfold verify_otp. rewrite Hadmin, Hs. cbn.
    destruct (Z.gtb_spec now (expires stored)); [lia|].
    by rewrite String.eqb_refl.
Qed.

Lemma wrong_guesses_keep_the_entry_witness :
  (verify_otp None 3000 "t" (JString Sample.admin) (JString "550000")
     (serve_all None
        [ VerifyOtp 2000 "a" (JString Sample.admin) (JString "000000");
          VerifyOtp 2100 "b" (JString Sample.admin) (JNumber 550000) ]
        {[ Sample.admin := {| otp := "550000"; expires := 301000 |} ]})).2
  = Some {| success := true; message := "Login successful"; token := Some "t" |}.
Proof.
  refine (f_equal snd (proj2 (proj2
    (wrong_guesses_keep_the_entry None Sample.admin
       {| otp := "550000"; expires := 301000 |}
       {[ Sample.admin := {| otp := "550000"; expires := 301000 |} ]}
       [ (2000, "a", JString "000000"); (2100, "b", JNumber 550000) ]
       3000 "t" _ _ _ _)))).
  - reflexivity.
  - reflexivity.
  - repeat constructor; cbn; (lia || discriminate).
  - cbn. lia.
Defined.

(** [X14] An OTP sent to the admin e-mail verifies, under the same e-mail
    string and with the generated code, exactly while the clock is at
    most 300,000 ms past the send-otp request, the last instant
    included; the answer then carries the session token.  This holds
    whatever the mail provider answered: a code whose mail was not sent,
    and whose send-otp request was answered with a failure, is stored
    and verifies all the same. *)
Theorem sent_otp_verifies_for_five_minutes env (sent now : Z) (random : Q)
    brevo e tok s :
  toLowerCase e = toLowerCase (ADMIN_EMAIL env) ->
  let s' := (send_otp env sent random brevo (JString e) s).1 in
  let answer := (verify_otp env now tok (JString e) (JString (generate random)) s').2 in
  (success <$> answer = Some true <-> now <= sent + 300000) /\
  (now <= sent + 300000 -> token <$> answer = Some (Some tok)) /\
  (brevo <> Some 201 ->
     success <$> (send_otp env sent random brevo (JString e) s).2 = Some false).
Proof.
  intros Hadmin. cbv zeta. apply authorized_iff in Hadmin.
  rewrite send_otp_authorized by done.
  unfold verify_otp. rewrite Hadmin, lookup_insert_eq. cbn.
  destruct (Z.gtb_spec now (sent + 300000)) as [Hlate|Hintime]; cbn.
  - split_and!; [split; [discriminate|lia]|lia|].
    intros Hbrevo. unfold send_otp. rewrite Hadmin. cbn.
    repeat case_match; try done; by subst.
  - rewrite String.eqb_refl. cbn. split_and!; [done|done|].
    intros Hbrevo. unfold send_otp. rewrite Hadmin. cbn.
    repeat case_match; try done; by subst.
Qed.

Lemma sent_otp_verifies_for_five_minutes_witness :
  success <$> (send_otp None 1000 (1 # 2) None (JString Sample.admin) ∅).2
    = Some false /\
  (success <$>
     (verify_otp None 301000 "t" (JString Sample.admin)
        (JString (generate (1 # 2)))
        (send_otp None 1000 (1 # 2) None (JString Sample.admin) ∅).1).2
   = Some true
   <-> 301000 <= 1000 + 300000).
Proof.
  destruct (sent_otp_verifies_for_five_minutes None 1000 301000 (1 # 2) None
              Sample.admin "t" ∅ eq_refl) as (Hiff & _ & Hfailed).
  split; [apply Hfailed; discriminate|exact Hiff].
Defined.

(** [X15] The store is keyed by the e-mail exactly as it was written in
    the request, while the admin check ignores letter case: a code sent
    for one spelling of the admin e-mail does not verify under another
    spelling that has no entry of its own ("not found"), and the entry
    stays where it was stored. *)
Theorem other_spelling_has_no_entry env (sent now : Z) (random : Q) brevo
    e e' tok code s :
  toLowerCase e = toLowerCase (ADMIN_EMAIL env) ->
  toLowerCase e' = toLowerCase (ADMIN_EMAIL env) ->
  e' <> e ->
  s !! e' = None ->
  let s' := (send_otp env sent random brevo (JString e) s).1 in
  verify_otp env now tok (JString e') code s'
  = (s', Some (refuse "OTP expired or not found. Please request a new one.")).
Proof.
  intros Hadmin Hadmin' Hne Hs. cbv zeta.
  apply authorized_iff in Hadmin. apply authorized_iff in Hadmin'.
  rewrite send_otp_authorized by done.
  unfold verify_otp. rewrite Hadmin'. cbn.
  by rewrite lookup_insert_ne, Hs.
Qed.

Lemma other_spelling_has_no_entry_witness :
  success <$>
    (verify_otp None 2000 "t" (JString "ZafsKitchen95@gmail.com")
       (JString (generate (1 # 2)))
       (send_otp None 1000 (1 # 2) (Some 201) (JString Sample.admin) ∅).1).2
  = Some false.
Proof.
  rewrite (other_spelling_has_no_entry None 1000 2000 (1 # 2) (Some 201)
             Sample.admin "ZafsKitchen95@gmail.com" "t"
             (JString (generate (1 # 2))) ∅);
    [reflexivity|reflexivity|reflexivity|discriminate|reflexivity].
Defined.

Lemma serve_unauthorized env (c : call) s :
  ~ from_admin env c ->
  (serve env c s).1 = s /\
  ((serve env c s).2 = None <-> printable (email_of c) = false) /\
  (printable (email_of c) = true -> success <$> (serve env c s).2 = Some false).
Proof.
  intros Hno.
  assert (forall e, email_of c = JString e -> authorized env e = false) as Hauth.
  { intros e He. apply not_true_is_false. rewrite authorized_iff.
    intros Hadmin. apply Hno. by exists e. }
  destruct c as [t q b email|t k email code]; cbn in *.
  - unfold send_otp. destruct (printable email) eqn:Hp; cbn; [|done].
    destruct email as [| | | |e|items|members];
      try (split_and!; [done|split; discriminate|done]).
    rewrite (Hauth e eq_refl). cbn. split_and!; [done|split; discriminate|done].
  - unfold verify_otp. destruct (printable email) eqn:Hp; cbn; [|done].
    destruct email as [| | | |e|items|members];
      try (split_and!; [done|split; discriminate|done]).
    rewrite (Hauth e eq_refl). cbn. split_and!; [done|split; discriminate|done].
Qed.

Lemma serve_keys env (c : call) s (k : string) :
  is_Some ((serve env c s).1 !! k) ->
  is_Some (s !! k) \/ (authorized env k = true /\ is_send c = true).
Proof.
  destruct c as [t q b email|t tk email code]; cbn.
  - unfold send_otp. destruct (printable email); cbn; auto.
    destruct email as [| | | |e|items|members]; cbn; auto.
    destruct (authorized env e) eqn:Hauth; cbn; auto.
    intros Hk.
    assert (is_Some (<[e:={| otp := generate q; expires := t + 5 * 60 * 1000 |}]> s !! k))
      as Hk' by (by repeat case_match).
    destruct (decide (e = k)) as [->|Hne]; [auto|].
    rewrite lookup_insert_ne in Hk' by done. auto.
  - unfold verify_otp. destruct (printable email); cbn; auto.
    destruct email as [| | | |e|items|members]; cbn; auto.
    destruct (authorized env e); cbn; auto.
    destruct (s !! e) as [stored|] eqn:Hs; auto.
    destruct (t >? expires stored); cbn.
    + intros Hk. left. destruct (decide (e = k)) as [->|Hne]; [by rewrite Hs|].
      by rewrite lookup_delete_ne in Hk.
    + destruct (differs (otp stored) code); cbn; auto.
      intros Hk. left. destruct (decide (e = k)) as [->|Hne]; [by rewrite Hs|].
      by rewrite lookup_delete_ne in Hk.
Qed.

(** [X16] Only admin e-mails get into the store: whatever requests reach
    the two routes, every key the store holds afterwards was either there
    before or is a spelling of the admin e-mail that a send-otp request
    brought.  A request whose e-mail is not a string, or is a string other
    than the admin's up to letter case, leaves the store exactly as it
    was and gets no success: it is answered with [success: false] when its
    e-mail converts to a string, and it is not answered at all when that
    conversion throws in the log line. *)
Theorem store_holds_admin_keys_only env (cs : list call) s (k : string) :
  is_Some (serve_all env cs s !! k) ->
  (is_Some (s !! k) \/
   (toLowerCase k = toLowerCase (ADMIN_EMAIL env) /\
    Exists (fun c => is_send c = true) cs)) /\
  (forall (c : call) (s0 : gmap string entry),
     ~ from_admin env c ->
     (serve env c s0).1 = s0 /\
     ((serve env c s0).2 = None <-> printable (email_of c) = false) /\
     (printable (email_of c) = true ->
        success <$> (serve env c s0).2 = Some false)).
Proof.
  intros Hk. split.
  - revert s Hk. unfold serve_all.
    induction cs as [|c cs IH]; intros s Hk; [by left|].
    cbn [foldl] in Hk. destruct (IH _ Hk) as [Hin|[Hadmin Hsend]].
    + destruct (serve_keys env c s k Hin) as [?|[Hauth Hsend]]; [by left|].
      right. split; [by apply authorized_iff|]. by left.
    + right. split; [done|]. by right.
  - intros c s0 Hno. by apply serve_unauthorized.
Qed.

Lemma store_holds_admin_keys_only_witness :
  toLowerCase Sample.admin = toLowerCase (ADMIN_EMAIL None) /\
  (serve None (SendOtp 1000 (1 # 2) (Some 201) (JString "guest@example.com"))
     ∅).1 = ∅ /\
  (serve None (VerifyOtp 1000 "t" (JArray [JObject [("toString", JNull)]])
                 (JString "550000")) ∅).2 = None.
Proof.
  assert (is_Some
            (serve_all None
               [ SendOtp 1000 (1 # 2) (Some 201) (JString "guest@example.com");
                 SendOtp 1000 (1 # 2) (Some 201) (JString Sample.admin) ]
               ∅ !! Sample.admin)) as Hk by (eexists; reflexivity).
  destruct (store_holds_admin_keys_only None _ ∅ Sample.admin Hk)
    as [[Hold|[Hadmin _]] Hrefused].
  - destruct Hold as [x Hx]. discriminate Hx.
  - split; [exact Hadmin|]. split.
    + refine (proj1 (Hrefused
        (SendOtp 1000 (1 # 2) (Some 201) (JString "guest@example.com")) ∅ _)).
      intros (e & [= <-] & Hsame). vm_compute in Hsame. discriminate Hsame.
    + refine (proj2 (proj1 (proj2 (Hrefused
        (VerifyOtp 1000 "t" (JArray [JObject [("toString", JNull)]])
           (JString "550000")) ∅ _))) eq_refl).
      intros (e & He & _). discriminate He.
Defined.

End OtpUse.

(** * Properties of the reading handlers *)

Section ReadingHandlers.

Import Main Reads.

Implicit Types (db : database) (r : gmap string value) (id status : string).

(** Selection by id looks at the id column only. *)
Lemma selected_by_id_assign sets id r :
  "id" ∉ sets.*1 ->
  selected (by_id id) (assign sets r) = selected (by_id id) r.
Proof.
  intros Hid. unfold selected, by_id. cbn [eval].
  by rewrite col_assign_other.
Qed.

Lemma filter_rewritten sets id (t : list (gmap string value)) :
  "id" ∉ sets.*1 ->
  filter (fun r => selected (by_id id) r = true)
    ((fun r => if selected (by_id id) r then assign sets r else r) <$> t)
  = assign sets <$> filter (fun r => selected (by_id id) r = true) t.
Proof.
  intros Hid. induction t as [|r t IH]; [done|].
  rewrite fmap_cons, !filter_cons, IH.
  destruct (selected (by_id id) r) eqn:Hsel.
  - rewrite selected_by_id_assign, Hsel by done.
    rewrite !decide_True by done. done.
  - rewrite Hsel. rewrite !decide_False by congruence. done.
Qed.

(** [X17] check-user-status reads back what update-user-status wrote: after
    an update of an existing user the answer is success with the stored
    status, and isBlocked is true exactly when that status is the string
    'blocked' (so 'Blocked' or 'BLOCKED' does not block).  For an id that
    no user has, the answer is 'User not found'. *)
Theorem check_user_status_after_update (now : Z) id status db r :
  r ∈ usertable db -> has_id id r ->
  check_user_status id (db_after (update_user_status now id status db))
    = StatusOk (Text status) (String.eqb status "blocked") /\
  (String.eqb status "blocked" = true <-> status = "blocked") /\
  (forall id', Forall (fun r => ~ has_id id' r) (usertable db) ->
     check_user_status id' db = StatusError "User not found").
Proof.
  intros Hin Hid. split; [|split].
  - unfold update_user_status. rewrite update_accepted by done.
    match goal with
    | |- context [first_row ?f ?k ?m (Done (?t, ?rows)) db] =>
        destruct (first_row_done f k m t rows db) as (-> & _ & _)
    end.
    unfold check_user_status, select.
    change (unknown_column usertable_columns _) with (@None string). cbv iota.
    cbn [with_usertable usertable].
    rewrite filter_rewritten by among_columns.
    destruct (filter_by_id_head id (usertable db) r Hin Hid)
      as (r0 & rest & -> & _ & _).
    cbn [fmap list_fmap].
    assert (col "status"
              (project (Columns ["status"])
                 (assign [("status", Text status); ("updated_at", Timestamp now)] r0))
            = Text status) as ->; [|done].
    unfold col at 1. rewrite lookup_project. rewrite decide_True by among_columns.
    cbn. column_read.
  - by destruct (String.eqb_spec status "blocked").
  - intros id' Hno. unfold check_user_status, select.
    change (unknown_column usertable_columns _) with (@None string). cbv iota.
    destruct (fmap_unselected (by_id id') (fun r => r) (usertable db)) as [_ ->];
      [|done].
    eapply Forall_impl; [exact Hno|]. intros r0. apply not_selected_by_id.
Qed.

Lemma check_user_status_after_update_witness :
  check_user_status "u-1" (db_after (update_user_status 7000 "u-1" "Blocked" Sample.db))
    = StatusOk (Text "Blocked") false.
Proof.
  refine (proj1 (check_user_status_after_update 7000 "u-1" "Blocked" Sample.db
                   Sample.customer _ _)).
  - left.
  - reflexivity.
Defined.

(** One request keeps, row by row, every booking column that no
    statement writes. *)
Lemma handle_keeps_column req db (c : string) :
  c ∉ [ "booking_status"; "cancellation_reason"; "approval_date";
        "updated_at"; "payment_status"; "charge_description";
        "service_charge"; "total_price"; "event_feedback";
        "completion_date"; "payment_deadline" ] ->
  Forall2 (fun r r' : gmap string value => r' !! c = r !! c)
    (bookings db) (bookings (db_after (handle req db))).
Proof.
  intros Hc. eapply Forall2_impl; [apply handle_rows|].
  intros r r' [->|(sets & -> & Hsets)]; [done|].
  apply lookup_assign_other.
  destruct req; try done; subst sets;
    [unfold status_assignments;
     destruct (String.eqb status "rejected" && truthy cancellationReason);
       [|destruct (String.eqb status "approved")]|..];
    among_columns.
Qed.

(** [X18] The number get-user-booking-count reports for a user is the same
    before and after any run of requests: no handler creates or removes a
    booking or moves one to another user. *)
Theorem booking_count_is_stable reqs (userId : string) db :
  get_user_booking_count userId (run reqs db) = get_user_booking_count userId db.
Proof.
  induction reqs as [|req reqs IH] using rev_ind; [done|].
  rewrite run_snoc, <- IH. generalize (run reqs db). clear IH. intros db0.
  unfold get_user_booking_count. f_equal.
  assert ("user_id" ∉ [ "booking_status"; "cancellation_reason";
            "approval_date"; "updated_at"; "payment_status";
            "charge_description"; "service_charge"; "total_price";
            "event_feedback"; "completion_date"; "payment_deadline" ]) as Hc
    by among_columns.
  pose proof (handle_keeps_column req db0 "user_id" Hc) as Hrows.
  induction Hrows as [|r r' t t' Hr _ IH]; [done|].
  rewrite !filter_cons.
  assert (selected (Eq "user_id" (Uuid userId)) r'
          = selected (Eq "user_id" (Uuid userId)) r) as ->.
  { unfold selected. cbn [eval]. unfold col. by rewrite Hr. }
  destruct (decide (selected (Eq "user_id" (Uuid userId)) r = true));
    cbn [length]; by rewrite IH.
Qed.


(** *** Statistics *)

Implicit Types (cells : list (option string)) (rows : list (option string * Z)).
Implicit Types (zero : gmap string Z).

Lemma group_count_keys cells : (group_count cells).*1 = remove_dups cells.
Proof.
  unfold group_count. rewrite <- list_fmap_compose.
  induction (remove_dups cells) as [|k l IH]; [done|].
  by rewrite fmap_cons, IH.
Qed.

Lemma elem_of_group_count cells (k : option string) (n : Z) :
  (k, n) ∈ group_count cells <->
  k ∈ cells /\ n = Z.of_nat (length (filter (fun k' => k' = k) cells)).
Proof.
  unfold group_count. rewrite list_elem_of_fmap. split.
  - intros (k' & [= -> ->] & Hk). split; [|done].
    by rewrite elem_of_remove_dups in Hk.
  - intros [Hk ->]. exists k. split; [done|]. by rewrite elem_of_remove_dups.
Qed.

(** Over distinct keys, the rows equal to one cell are counted once. *)
Lemma one_group_per_cell (x : option string) (ks : list (option string))
    (f : option string -> Z) :
  NoDup ks ->
  foldr (fun k acc => (f k + if decide (x = k) then 1 else 0) + acc) 0 ks
  = foldr (fun k acc => f k + acc) 0 ks + (if decide (x ∈ ks) then 1 else 0).
Proof.
  induction 1 as [|k ks Hk Hnd IH]; [done|]. cbn [foldr]. rewrite IH.
  destruct (decide (x = k)) as [->|Hne].
  - rewrite (decide_True (P := k ∈ k :: ks)) by left.
    rewrite (decide_False (P := k ∈ ks)) by done. lia.
  - destruct (decide (x ∈ ks)) as [Hin|Hout].
    + rewrite (decide_True (P := x ∈ k :: ks)) by (by right). lia.
    + rewrite (decide_False (P := x ∈ k :: ks)); [lia|].
      intros [?|?]%elem_of_cons; done.
Qed.

Lemma counts_add_up (ks l : list (option string)) :
  NoDup ks -> (forall x, x ∈ l -> x ∈ ks) ->
  foldr (fun k acc => Z.of_nat (length (filter (fun k' => k' = k) l)) + acc) 0 ks
  = Z.of_nat (length l).
Proof.
  intros Hnd. induction l as [|x l IH]; intros Hin.
  - clear. induction ks as [|k ks IHk]; [done|]. cbn [foldr].
    by rewrite IHk.
  - transitivity
      (foldr (fun k acc =>
                (Z.of_nat (length (filter (fun k' => k' = k) l))
                 + if decide (x = k) then 1 else 0) + acc) 0 ks).
    + clear. induction ks as [|k ks IHk]; [done|]. cbn [foldr]. rewrite IHk.
      f_equal. rewrite filter_cons.
      destruct (decide (x = k)); cbn [length]; lia.
    + rewrite (one_group_per_cell x ks
                 (fun k => Z.of_nat (length (filter (fun k' => k' = k) l)))) by done.
      rewrite IH by (intros y Hy; apply Hin; by right).
      rewrite decide_True by (apply Hin; left). cbn [length]. lia.
Qed.

Lemma group_count_total cells :
  foldr (fun row acc => row.2 + acc) 0 (group_count cells)
  = Z.of_nat (length cells).
Proof.
  rewrite <- (counts_add_up (remove_dups cells) cells).
  - unfold group_count. induction (remove_dups cells) as [|k l IH]; [done|].
    rewrite fmap_cons. cbn [foldr]. by rewrite IH.
  - apply NoDup_remove_dups.
  - intros x. by rewrite elem_of_remove_dups.
Qed.

Lemma foldr_counts_permutation rows rows' :
  rows ≡ₚ rows' ->
  foldr (fun row acc => row.2 + acc) 0 rows
  = foldr (fun row acc => row.2 + acc) 0 rows'.
Proof. induction 1; cbn [foldr]; lia. Qed.

(** The statistics object after the rows of a GROUP BY, none of them for
    a NULL cell or a cell spelled [total] or [__proto__]. *)
Lemma tally_lookup zero rows :
  is_Some (zero !! "total") ->
  NoDup rows.*1 ->
  Forall (fun row => exists s, row.1 = Some s /\ s <> "total" /\ s <> "__proto__")
    rows ->
  tally zero rows !! "total"
    = Some (default 0 (zero !! "total")
            + foldr (fun row acc => row.2 + acc) 0 rows) /\
  forall s : string, s <> "total" ->
    (forall n, (Some s, n) ∈ rows -> tally zero rows !! s = Some n) /\
    (Some s ∉ rows.*1 -> tally zero rows !! s = zero !! s).
Proof.
  intros Htotal Hnd Hrows. revert zero Htotal Hnd. unfold tally.
  induction Hrows as [|[k n] rows (s0 & Hk & Hs0 & Hproto) _ IH];
    intros zero [z Hz] Hnd.
  - cbn. rewrite Hz. cbn. split; [f_equal; lia|]. intros s _. split; [|done].
    intros n Hin. by apply elem_of_nil in Hin.
  - cbn in Hk. subst k. rewrite fmap_cons in Hnd.
    apply NoDup_cons in Hnd as [Hfresh Hnd]. cbn [foldl foldr].
    assert (add_row zero (Some s0, n) = <["total" := z + n]> (<[s0 := n]> zero))
      as Hstep.
    { unfold add_row, set_property, property_name. cbn.
      destruct (String.eqb_spec s0 "__proto__"); [done|].
      by rewrite lookup_insert_ne, Hz. }
    rewrite Hstep.
    destruct (IH (<["total" := z + n]> (<[s0 := n]> zero))) as [IHt IHs];
      [by rewrite lookup_insert_eq|done|].
    split.
    + rewrite IHt, lookup_insert_eq, Hz. cbn. f_equal. lia.
    + intros s Hs. destruct (IHs s Hs) as [IHin IHout]. split.
      * intros m [[= -> ->]|Hin]%elem_of_cons; [|by apply IHin].
        rewrite IHout by done.
        by rewrite lookup_insert_ne, lookup_insert_eq.
      * intros Hout. rewrite fmap_cons in Hout.
        apply not_elem_of_cons in Hout as [Hne Hout]. cbn in Hne.
        rewrite IHout by done.
        rewrite !lookup_insert_ne by congruence. done.
Qed.

(** The same for the rows of [group_count], in whatever order. *)
Lemma tally_counts zero cells rows :
  zero !! "total" = Some 0 ->
  rows ≡ₚ group_count cells ->
  Forall (fun k => exists s, k = Some s /\ s <> "total" /\ s <> "__proto__") cells ->
  tally zero rows !! "total" = Some (Z.of_nat (length cells)) /\
  forall s : string, s <> "total" ->
    tally zero rows !! s =
      if decide (Some s ∈ cells)
      then Some (Z.of_nat (length (filter (fun k' => k' = Some s) cells)))
      else zero !! s.
Proof.
  intros Hzero Hperm Hcells.
  assert (NoDup rows.*1) as Hnd.
  { rewrite Hperm, group_count_keys. apply NoDup_remove_dups. }
  assert (Forall (fun row => exists s, row.1 = Some s /\ s <> "total"
                                       /\ s <> "__proto__") rows) as Hrows.
  { apply Forall_forall. intros [k n] Hin. rewrite Hperm in Hin.
    apply elem_of_group_count in Hin as [Hk _].
    rewrite Forall_forall in Hcells. by apply Hcells. }
  destruct (tally_lookup zero rows) as [Ht Hs]; [by rewrite Hzero|done|done|].
  split.
  - rewrite Ht, Hzero, (foldr_counts_permutation _ _ Hperm), group_count_total.
    done.
  - intros s Hne. destruct (Hs s Hne) as [Hin Hout].
    destruct (decide (Some s ∈ cells)) as [Hcell|Hcell].
    + apply Hin. rewrite Hperm. by apply elem_of_group_count.
    + apply Hout. rewrite Hperm, group_count_keys.
      by rewrite elem_of_remove_dups.
Qed.


Lemma cells_with_text (c : string) (t : list (gmap string value)) (s : string) :
  filter (fun k' => k' = Some s) (text_of ∘ col c <$> t)
  = text_of ∘ col c <$> filter (fun r => text_of (col c r) = Some s) t.
Proof.
  induction t as [|r t IH]; [done|].
  rewrite fmap_cons, !filter_cons, IH. cbn.
  destruct (decide (text_of (col c r) = Some s)); by rewrite ?fmap_cons.
Qed.

(** The statistics of one TEXT column of a table. *)
Lemma column_stats zero (c : string) (t : list (gmap string value)) rows :
  zero !! "total" = Some 0 ->
  rows ≡ₚ group_count (text_of ∘ col c <$> t) ->
  Forall (fun r => exists s, col c r = Text s /\ s <> "total" /\ s <> "__proto__") t ->
  tally zero rows = tally zero (group_count (text_of ∘ col c <$> t)) /\
  tally zero rows !! "total" = Some (Z.of_nat (length t)) /\
  forall s : string, s <> "total" ->
    tally zero rows !! s =
      match length (filter (fun r => text_of (col c r) = Some s) t) with
      | O => zero !! s
      | S n => Some (Z.of_nat (S n))
      end.
Proof.
  intros Hzero Hperm Ht.
  assert (Forall (fun k => exists s, k = Some s /\ s <> "total" /\ s <> "__proto__")
            (text_of ∘ col c <$> t)) as Hcells.
  { apply Forall_fmap. eapply Forall_impl; [exact Ht|].
    intros r (s & Hs & ? & ?). exists s. cbn. by rewrite Hs. }
  assert (forall rows', rows' ≡ₚ group_count (text_of ∘ col c <$> t) ->
            tally zero rows' !! "total" = Some (Z.of_nat (length t)) /\
            forall s : string, s <> "total" ->
              tally zero rows' !! s =
                match length (filter (fun r => text_of (col c r) = Some s) t) with
                | O => zero !! s
                | S n => Some (Z.of_nat (S n))
                end) as Hany.
  { intros rows' Hperm'.
    destruct (tally_counts zero _ rows' Hzero Hperm' Hcells) as [Htotal Hs].
    split; [by rewrite Htotal, length_fmap|].
    intros s Hne. rewrite (Hs s Hne), cells_with_text, length_fmap.
    destruct (filter (fun r => text_of (col c r) = Some s) t) as [|r0 l] eqn:Hf.
    - rewrite decide_False; [done|].
      intros (r & Hr & Hin)%list_elem_of_fmap.
      eapply (filter_nil_not_elem_of _ _ r Hf); [|done]. by rewrite Hr.
    - rewrite decide_True; [done|].
      assert (r0 ∈ filter (fun r => text_of (col c r) = Some s) t) as Hr0
        by (rewrite Hf; left).
      apply list_elem_of_filter in Hr0 as [Hr0 Hin].
      apply list_elem_of_fmap. exists r0. by rewrite <- Hr0. }
  destruct (Hany rows Hperm) as [Htotal Hs].
  destruct (Hany (group_count (text_of ∘ col c <$> t))) as [Htotal' Hs']; [done|].
  split; [|done].
  apply map_eq. intros k. destruct (decide (k = "total")) as [->|Hne].
  - by rewrite Htotal, Htotal'.
  - by rewrite Hs, Hs'.
Qed.

(** [X19] get-booking-stats over bookings whose statuses are texts other
    than [total] and [__proto__]: the answer does not depend on the order
    in which the database returns the groups; [total] is the number of
    bookings; every status that occurs is reported with the number of
    bookings that carry it; a status that does not occur is reported as 0
    if it is pending, approved, rejected or completed and is absent from
    the answer otherwise, as 'cancelled' is when no booking is cancelled. *)
Theorem booking_stats_counts db rows :
  rows ≡ₚ group_count (text_of ∘ col "booking_status" <$> bookings db) ->
  Forall (fun b => exists s, col "booking_status" b = Text s /\
                             s <> "total" /\ s <> "__proto__") (bookings db) ->
  let stats := tally booking_stats_zero rows in
  stats = get_booking_stats db /\
  stats !! "total" = Some (Z.of_nat (length (bookings db))) /\
  (forall s : string, s <> "total" ->
     stats !! s =
       match length (filter (fun b => text_of (col "booking_status" b) = Some s)
                       (bookings db)) with
       | O => if bool_decide (s ∈ ["pending"; "approved"; "rejected"; "completed"])
              then Some 0 else None
       | S n => Some (Z.of_nat (S n))
       end).
Proof.
  intros Hperm Hvalid. cbv zeta.
  destruct (column_stats booking_stats_zero "booking_status" (bookings db) rows
              eq_refl Hperm Hvalid) as (Horder & Htotal & Hs).
  split; [exact Horder|]. split; [exact Htotal|].
  intros s Hne. rewrite (Hs s Hne).
  match goal with
  | |- match ?n with O => _ | S _ => _ end = _ => destruct n; [|done]
  end.
  unfold booking_stats_zero.
  destruct (decide (s = "pending")) as [->|]; [done|].
  destruct (decide (s = "approved")) as [->|]; [done|].
  destruct (decide (s = "rejected")) as [->|]; [done|].
  destruct (decide (s = "completed")) as [->|]; [done|].
  rewrite bool_decide_eq_false_2 by among_columns.
  by simplify_map_eq.
Qed.

Lemma booking_stats_counts_witness :
  get_booking_stats Sample.db !! "total" = Some 2 /\
  get_booking_stats Sample.db !! "pending" = Some 1 /\
  get_booking_stats Sample.db !! "completed" = Some 0 /\
  get_booking_stats Sample.db !! "cancelled" = None.
Proof.
  assert (Forall (fun b : gmap string value =>
                    exists s, col "booking_status" b = Text s /\
                              s <> "total" /\ s <> "__proto__")
            (bookings Sample.db)) as Hvalid.
  { repeat constructor.
    - exists "approved". by split_and!.
    - exists "pending". by split_and!. }
  destruct (booking_stats_counts Sample.db
              (group_count (text_of ∘ col "booking_status" <$> bookings Sample.db))
              (reflexivity _) Hvalid) as (Horder & Htotal & Hs).
  rewrite <- Horder. split; [exact Htotal|].
  split; [|split].
  - rewrite (Hs "pending") by discriminate. reflexivity.
  - rewrite (Hs "completed") by discriminate. reflexivity.
  - rewrite (Hs "cancelled") by discriminate. reflexivity.
Defined.

(** [X20] get-staff-stats over staff whose statuses are texts other than
    [total] and [__proto__]: [total] is the number of staff rows, every
    status that occurs is reported with its number of rows, in whatever
    order the groups come back; of the statuses that do not occur only
    pending, approved and rejected are reported (as 0), so 'suspended'
    is absent from the answer unless some staff member is suspended. *)
Theorem staff_stats_counts db rows :
  rows ≡ₚ group_count (text_of ∘ col "status" <$> staff db) ->
  Forall (fun r => exists s, col "status" r = Text s /\
                             s <> "total" /\ s <> "__proto__") (staff db) ->
  let stats := tally staff_stats_zero rows in
  stats = get_staff_stats db /\
  stats !! "total" = Some (Z.of_nat (length (staff db))) /\
  (forall s : string, s <> "total" ->
     stats !! s =
       match length (filter (fun r => text_of (col "status" r) = Some s)
                       (staff db)) with
       | O => if bool_decide (s ∈ ["pending"; "approved"; "rejected"])
              then Some 0 else None
       | S n => Some (Z.of_nat (S n))
       end).
Proof.
  intros Hperm Hvalid. cbv zeta.
  destruct (column_stats staff_stats_zero "status" (staff db) rows
              eq_refl Hperm Hvalid) as (Horder & Htotal & Hs).
  split; [exact Horder|]. split; [exact Htotal|].
  intros s Hne. rewrite (Hs s Hne).
  match goal with
  | |- match ?n with O => _ | S _ => _ end = _ => destruct n; [|done]
  end.
  unfold staff_stats_zero.
  destruct (decide (s = "pending")) as [->|]; [done|].
  destruct (decide (s = "approved")) as [->|]; [done|].
  destruct (decide (s = "rejected")) as [->|]; [done|].
  rewrite bool_decide_eq_false_2 by among_columns.
  by simplify_map_eq.
Qed.

Lemma staff_stats_counts_witness :
  get_staff_stats Sample.db !! "total" = Some 1 /\
  get_staff_stats Sample.db !! "suspended" = None.
Proof.
  assert (Forall (fun r : gmap string value =>
                    exists s, col "status" r = Text s /\
                              s <> "total" /\ s <> "__proto__")
            (staff Sample.db)) as Hvalid.
  { repeat constructor. exists "pending". by split_and!. }
  destruct (staff_stats_counts Sample.db
              (group_count (text_of ∘ col "status" <$> staff Sample.db))
              (reflexivity _) Hvalid) as (Horder & Htotal & Hs).
  rewrite <- Horder. split; [exact Htotal|].
  rewrite (Hs "suspended") by discriminate. reflexivity.
Defined.

End ReadingHandlers.

(** * Properties of the server start-up *)

Section ServerStartup.

Import Startup.

Implicit Types (health : nat -> bool) (trace : list event).

Lemma checks_cons ev trace :
  checks (ev :: trace) = ((if decide (ev = Check) then 1 else 0) + checks trace)%nat.
Proof. unfold checks. rewrite filter_cons. by destruct (decide (ev = Check)). Qed.

Lemma starts_cons ev trace :
  starts (ev :: trace) = ((if decide (ev = Start) then 1 else 0) + starts trace)%nat.
Proof. unfold starts. rewrite filter_cons. by destruct (decide (ev = Start)). Qed.

(** The loop from [attempts] checks made and [remaining] checks left. *)
Lemma wait_loop_spec health (interval : Z) (remaining attempts : nat) :
  let ready := (wait_loop health interval attempts remaining).1 in
  let trace := (wait_loop health interval attempts remaining).2 in
  (ready = true ->
     exists k, (attempts < k <= attempts + remaining)%nat /\
       health k = true /\
       (forall j, (attempts < j < k)%nat -> health j = false) /\
       checks trace = (k - attempts)%nat /\
       slept trace = interval * Z.of_nat (k - attempts - 1)) /\
  (ready = false ->
     (forall k, (attempts < k <= attempts + remaining)%nat -> health k = false) /\
     checks trace = remaining /\
     slept trace = interval * Z.of_nat (remaining - 1)) /\
  starts trace =
    (if (attempts =? 0)%nat && (1 <=? remaining)%nat && negb (health 1)
     then 1 else 0)%nat.
Proof.
  revert attempts. induction remaining as [|remaining IH]; intros attempts.
  { cbn. split_and!; [discriminate| |by rewrite andb_false_r].
    intros _. split_and!; [intros k; lia|done|lia]. }
  cbn [wait_loop]. destruct (health (S attempts)) eqn:Hfirst; cbn [fst snd].
  - split_and!; [|discriminate|].
    + intros _. exists (S attempts). split_and!; try done; try lia.
      * by replace (S attempts - attempts)%nat with 1%nat by lia.
      * replace (S attempts - attempts - 1)%nat with 0%nat by lia. cbn. lia.
    + destruct attempts as [|attempts]; cbn; [by rewrite Hfirst|done].
  - specialize (IH (S attempts)). cbv zeta in IH.
    destruct IH as (IHready & IHfail & IHstarts).
    set (rest := wait_loop health interval (S attempts) remaining) in *.
    assert (forall started waited : list event,
              Forall (fun ev => ev <> Check) (started ++ waited) ->
              checks (Check :: started ++ waited ++ rest.2) = S (checks rest.2))
      as Hchecks.
    { intros started waited Hno. rewrite checks_cons, decide_True by done.
      rewrite app_assoc. unfold checks at 1. rewrite filter_app, length_app.
      assert (filter (fun ev => ev = Check) (started ++ waited) = []) as ->; [|done].
      induction Hno as [|ev l Hev _ IHl]; [done|].
      by rewrite filter_cons, decide_False. }
    assert (forall started : list event,
              slept (Check :: started
                       ++ match remaining with O => [] | S _ => [Sleep interval] end
                       ++ rest.2)
              = slept started
                + (match remaining with O => 0 | S _ => interval end)
                + slept rest.2) as Hslept.
    { intros started. cbn [slept foldr]. unfold slept.
      rewrite !foldr_app.
      generalize (foldr (fun ev total => match ev with
                                         | Sleep ms => ms + total
                                         | _ => total
                                         end) 0 rest.2).
      intros z. destruct remaining; cbn [foldr].
      - induction started as [|[| |ms] l IHl]; cbn [foldr]; lia.
      - induction started as [|[| |ms] l IHl]; cbn [foldr]; lia. }
    assert (Forall (fun ev : event => ev <> Check)
              ((if (S attempts =? 1)%nat then [Start] else [])
                 ++ match remaining with O => [] | S _ => [Sleep interval] end))
      as Hno.
    { destruct (S attempts =? 1)%nat, remaining; repeat constructor; done. }
    assert (slept (if (S attempts =? 1)%nat then [Start] else []) = 0) as Hquiet
      by (by destruct (S attempts =? 1)%nat).
    split_and!.
    + intros Hready. destruct (IHready Hready) as (k & Hk & Hhealthy & Hbefore & Hc & Hs).
      exists k. split_and!; try done; try lia.
      * intros j Hj. destruct (decide (j = S attempts)) as [->|]; [done|].
        apply Hbefore. lia.
      * rewrite Hchecks, Hc by done. lia.
      * rewrite Hslept, Hquiet, Hs.
        destruct remaining; [lia|].
        replace (k - attempts - 1)%nat with (S (k - S attempts - 1)) by lia.
        lia.
    + intros Hfail. destruct (IHfail Hfail) as (Hnone & Hc & Hs).
      split_and!.
      * intros k Hk. destruct (decide (k = S attempts)) as [->|]; [done|].
        apply Hnone. lia.
      * by rewrite Hchecks, Hc.
      * rewrite Hslept, Hquiet, Hs. destruct remaining; [cbn; lia|].
        replace (S (S remaining) - 1)%nat with (S (S remaining - 1)) by lia. lia.
    + rewrite starts_cons, decide_False by done. unfold starts in *.
      rewrite !filter_app, !length_app, IHstarts.
      destruct attempts as [|attempts]; cbn.
      * rewrite Hfirst. by destruct remaining.
      * by destruct remaining.
Qed.

(** [X21] waitForServer answers true exactly when one of the first
    maxAttempts health checks finds the server healthy, and it then stops
    at the first such check.  It never makes more than maxAttempts checks;
    when it gives up it has made all of them and waited the interval
    between consecutive checks but not after the last one.  It starts the
    server at most once, namely after a first check that failed; with
    maxAttempts 0 it answers false without checking at all. *)
Theorem waitForServer_spec health (maxAttempts : nat) (interval : Z) :
  let ready := (waitForServer health maxAttempts interval).1 in
  let trace := (waitForServer health maxAttempts interval).2 in
  (ready = true <-> exists k, (1 <= k <= maxAttempts)%nat /\ health k = true) /\
  (ready = true ->
     exists k, (1 <= k <= maxAttempts)%nat /\ health k = true /\
       (forall j, (1 <= j < k)%nat -> health j = false) /\
       checks trace = k /\ slept trace = interval * Z.of_nat (k - 1)) /\
  (ready = false ->
     checks trace = maxAttempts /\
     slept trace = interval * Z.of_nat (maxAttempts - 1)) /\
  (checks trace <= maxAttempts)%nat /\
  (starts trace = if (1 <=? maxAttempts)%nat && negb (health 1) then 1 else 0)%nat /\
  (maxAttempts = 0%nat -> ready = false /\ trace = []).
Proof.
  cbv zeta. unfold waitForServer.
  destruct (wait_loop_spec health interval maxAttempts 0)
    as (Hready & Hfail & Hstarts). cbv zeta in *.
  assert ((wait_loop health interval 0 maxAttempts).1 = true ->
          exists k, (1 <= k <= maxAttempts)%nat /\ health k = true /\
            (forall j, (1 <= j < k)%nat -> health j = false) /\
            checks (wait_loop health interval 0 maxAttempts).2 = k /\
            slept (wait_loop health interval 0 maxAttempts).2
              = interval * Z.of_nat (k - 1)) as Hfound.
  { intros Hr. destruct (Hready Hr) as (k & Hk & Hh & Hb & Hc & Hs).
    exists k. split_and!; try done; try lia;
      try (intros j Hj; apply Hb; lia); rewrite Hs; do 2 f_equal; lia. }
  split_and!.
  - split.
    + intros Hr. destruct (Hfound Hr) as (k & ? & ? & _). eauto.
    + intros (k & Hk & Hh).
      destruct ((wait_loop health interval 0 maxAttempts).1) eqn:Hr; [done|].
      destruct (Hfail eq_refl) as (Hnone & _). rewrite Hnone in Hh by lia. done.
  - exact Hfound.
  - intros Hr. by destruct (Hfail Hr) as (_ & ? & ?).
  - destruct ((wait_loop health interval 0 maxAttempts).1) eqn:Hr.
    + destruct (Hfound eq_refl) as (k & Hk & _ & _ & -> & _). lia.
    + destruct (Hfail eq_refl) as (_ & -> & _). lia.
  - exact Hstarts.
  - by intros ->.
Qed.

(** [X22] restart-server succeeds exactly when one of the 8 health checks
    that follow the start finds the server healthy.  If the first of them
    fails, the server is started a second time, the process started
    moments before being stopped again; otherwise it is started once. *)
Theorem restart_server_starts (running : bool) health :
  let trace := (restart_server running health).2 in
  ((restart_server running health).1 = true <->
     exists k, (1 <= k <= 8)%nat /\ health k = true) /\
  starts trace = (if health 1 then 1 else 2)%nat /\
  (checks trace <= 8)%nat.
Proof.
  cbv zeta. unfold restart_server, waitForServer. cbn [fst snd].
  destruct (wait_loop_spec health 3000 8 0) as (Hready & Hfail & Hstarts).
  cbv zeta in *.
  set (waited := wait_loop health 3000 0 8) in *.
  assert (forall stopped : list event,
            Forall (fun ev => ev <> Check /\ ev <> Start) stopped ->
            checks (stopped ++ Start :: waited.2) = checks waited.2 /\
            starts (stopped ++ Start :: waited.2) = S (starts waited.2)) as Hprefix.
  { intros stopped Hquiet. induction Hquiet as [|ev l [Hc Hs] _ [IHc IHs]].
    - cbn [app]. rewrite checks_cons, starts_cons.
      rewrite decide_False by done. by rewrite decide_True.
    - cbn [app]. rewrite checks_cons, starts_cons.
      by rewrite !decide_False, IHc, IHs. }
  destruct (Hprefix (if running then [Sleep 1000] else [])) as [-> ->].
  { destruct running; repeat constructor; done. }
  split_and!.
  - split.
    + intros Hr. destruct (Hready Hr) as (k & Hk & Hh & _).
      exists k. split; [lia|done].
    + intros (k & Hk & Hh). destruct waited.1 eqn:Hr; [done|].
      destruct (Hfail eq_refl) as (Hnone & _).
      rewrite Hnone in Hh by lia. done.
  - rewrite Hstarts. cbn. by destruct (health 1%nat).
  - destruct waited.1 eqn:Hr.
    + destruct (Hready eq_refl) as (k & Hk & _ & _ & -> & _). lia.
    + destruct (Hfail eq_refl) as (_ & -> & _). lia.
Qed.

End ServerStartup.

(** * Properties of the renderer *)

Section RendererActions.

Import Main Renderer.

Implicit Types (db : database) (r : gmap string value) (id : string).

(** [X23] The two booking buttons.  A declined confirmation, or a prompt
    that was cancelled or left empty, sends nothing and the database stays
    as it is.  An accepted approval leaves the booking 'approved' with
    approval_date = NOW() and no cancellation reason; a rejection with a
    typed reason leaves it 'rejected' with exactly that reason.  The
    buttons only ever send the statuses 'approved' and 'rejected', so any
    series of clicks keeps every booking_status and payment_status within
    the status sets of the data model. *)
Theorem booking_buttons (now : Z) id (reason : option string) db (i : nat) r :
  bookings db !! i = Some r -> has_id id r ->
  run (approveBooking false now id) db = db /\
  (truthy reason = false -> run (rejectBooking reason now id) db = db) /\
  (exists r',
     bookings (run (approveBooking true now id) db) !! i = Some r' /\
     col "booking_status" r' = Text "approved" /\
     col "approval_date" r' = Timestamp now /\
     col "cancellation_reason" r' = Null) /\
  (forall text, reason = Some text -> text <> "" ->
     exists r',
       bookings (run (rejectBooking reason now id) db) !! i = Some r' /\
       col "booking_status" r' = Text "rejected" /\
       col "cancellation_reason" r' = Text text) /\
  (forall clicks : list (list request),
     Forall (fun click =>
               exists confirmed reason' (now' : Z) id',
                 click = approveBooking confirmed now' id' \/
                 click = rejectBooking reason' now' id') clicks ->
     statuses_valid db -> statuses_valid (run (concat clicks) db)).
Proof.
  intros Hr Hid. split_and!.
  - done.
  - intros Hempty. unfold rejectBooking. by rewrite Hempty.
  - unfold approveBooking, run. cbn [foldl handle]. unfold update_booking_status.
    destruct (booking_handler_outcome (status_assignments now "approved" None)
                id "Booking not found" db i r
                (status_assignments_accepted now "approved" None id) Hr Hid)
      as (Hrow & _).
    eexists. split; [exact Hrow|]. cbn. split_and!; column_read.
  - intros text -> Htext. unfold rejectBooking.
    destruct text as [|a text]; [done|]. cbn [truthy].
    unfold run. cbn [foldl handle]. unfold update_booking_status.
    destruct (booking_handler_outcome
                (status_assignments now "rejected" (Some (String a text)))
                id "Booking not found" db i r
                (status_assignments_accepted now "rejected" _ id) Hr Hid)
      as (Hrow & _).
    eexists. split; [exact Hrow|]. cbn. split_and!; column_read.
  - intros clicks Hclicks Hvalid. apply run_preserves_statuses; [done|].
    induction Hclicks as [|click clicks Hclick _ IH]; [constructor|].
    cbn [concat]. apply Forall_app. split; [|exact IH].
    destruct Hclick as (confirmed & reason' & now' & id' & [->| ->]).
    + unfold approveBooking. destruct confirmed; repeat constructor.
    + unfold rejectBooking. destruct (truthy reason'); repeat constructor.
Qed.

Lemma booking_buttons_witness :
  run (rejectBooking (Some "") 3000 "b-2") Sample.db = Sample.db /\
  exists r',
    bookings (run (rejectBooking (Some "Fully booked") 3000 "b-2") Sample.db)
      !! 1%nat = Some r' /\
    col "booking_status" r' = Text "rejected" /\
    col "cancellation_reason" r' = Text "Fully booked".
Proof.
  split.
  - refine (proj1 (proj2 (booking_buttons 3000 "b-2" (Some "") Sample.db 1
                            Sample.waiting eq_refl eq_refl)) eq_refl).
  - refine (proj1 (proj2 (proj2 (proj2
              (booking_buttons 3000 "b-2" (Some "Fully booked") Sample.db 1
                 Sample.waiting eq_refl eq_refl))))
              "Fully booked" eq_refl _).
    discriminate.
Defined.

(** [X24] The approve button sends update-booking-status and nothing
    else: it sets no payment deadline.  A booking that had none before is
    approved with payment_deadline still NULL, and the WHERE clause of
    the expiry sweep selects it at no instant. *)
Theorem approval_sets_no_deadline (now : Z) id db (i : nat) r :
  bookings db !! i = Some r -> has_id id r ->
  col "payment_deadline" r = Null ->
  exists r',
    bookings (run (approveBooking true now id) db) !! i = Some r' /\
    col "booking_status" r' = Text "approved" /\
    col "payment_deadline" r' = Null /\
    forall now' : Z, selected (expired now') r' = false.
Proof.
  intros Hr Hid Hnull.
  unfold approveBooking, run. cbn [foldl handle]. unfold update_booking_status.
  destruct (booking_handler_outcome (status_assignments now "approved" None)
              id "Booking not found" db i r
              (status_assignments_accepted now "approved" None id) Hr Hid)
    as (Hrow & _).
  eexists. split; [exact Hrow|].
  assert (col "payment_deadline" (assign (status_assignments now "approved" None) r)
          = Null) as Hkept.
  { rewrite col_assign_other; [done|]. cbn. among_columns. }
  split_and!; [cbn; column_read|done|].
  intros now'. apply not_true_is_false. rewrite expired_selected.
  intros (_ & _ & d & Hd & _). congruence.
Qed.

Lemma approval_sets_no_deadline_witness :
  exists r',
    bookings (run (approveBooking true 3000 "b-2") Sample.db) !! 1%nat = Some r' /\
    col "booking_status" r' = Text "approved" /\
    col "payment_deadline" r' = Null /\
    forall now' : Z, selected (expired now') r' = false.
Proof.
  exact (approval_sets_no_deadline 3000 "b-2" Sample.db 1 Sample.waiting
           eq_refl eq_refl eq_refl).
Defined.

(** [X25] The dashboard counters are never brought up to date.  On each
    of its three paths [window.api.getBookings] answers an object with the
    properties success and data, never the array of rows itself; the
    object has no method [filter], so the first count in
    [loadDashboardStats] throws and the four counters keep what they
    showed, whatever the main process returned and whatever bookings the
    database holds. *)
Theorem dashboard_counters (answer : invoked) (shown : counters) :
  (exists ok data rest,
     getBookings answer
     = JsObject (("success", JsBool ok) :: rest ++ [("data", JsArray data)]) /\
     (ok = true <-> answer = Resolved (JsArray data))) /\
  (forall status, js_filter status (getBookings answer) = None) /\
  loadDashboardStats (getBookings answer) shown = shown.
Proof.
  destruct answer as [[b|t|rows|properties]|message]; cbn.
  - split_and!; [|done|done].
    exists false, [], [("error", JsString "Invalid data received")].
    by split.
  - split_and!; [|done|done].
    exists false, [], [("error", JsString "Invalid data received")].
    by split.
  - split_and!; [|done|done]. exists true, rows, []. by split.
  - split_and!; [|done|done].
    exists false, [], [("error", JsString "Invalid data received")].
    by split.
  - split_and!; [|done|done].
    exists false, [], [("error", JsString message)]. by split.
Qed.

Lemma length_substring0 (n : nat) (s : string) :
  String.length (substring0 n s) = Nat.min n (String.length s).
Proof.
  revert s. induction n as [|n IH]; intros [|c s]; cbn; try done.
  by rewrite IH.
Qed.

Lemma length_append (s t : string) :
  String.length (s +:+ t) = (String.length s + String.length t)%nat.
Proof. induction s as [|c s IH]; simpl; [done|]. by f_equal. Qed.

Lemma substring0_append (n : nat) (s t : string) :
  (n <= String.length s)%nat -> substring0 n (s +:+ t) = substring0 n s.
Proof.
  revert s. induction n as [|n IH]; intros s Hn.
  - by destruct s, t.
  - destruct s as [|c s]; simpl in *; [lia|].
    f_equal. apply IH. lia.
Qed.

Lemma substring0_twice (n : nat) (s : string) :
  substring0 n (substring0 n s) = substring0 n s.
Proof.
  revert s. induction n as [|n IH]; intros [|c s]; cbn; try done.
  by rewrite IH.
Qed.

(** [X26] truncateText returns a text of at most maxLength characters
    unchanged, and cuts a longer one to its first maxLength characters
    followed by three dots, so the result is maxLength + 3 characters
    long, more than the limit and possibly more than the text itself;
    truncating the result again changes nothing.  A missing or empty text
    gives the empty string. *)
Theorem truncateText_spec (text : string) (maxLength : nat) :
  truncateText None maxLength = "" /\
  truncateText (Some "") maxLength = "" /\
  ((String.length text <= maxLength)%nat ->
     truncateText (Some text) maxLength = text) /\
  ((maxLength < String.length text)%nat ->
     truncateText (Some text) maxLength = substring0 maxLength text +:+ "..." /\
     String.length (truncateText (Some text) maxLength) = (maxLength + 3)%nat) /\
  truncateText (Some (truncateText (Some text) maxLength)) maxLength
    = truncateText (Some text) maxLength.
Proof.
  assert (forall t : string, (String.length t <= maxLength)%nat ->
            truncateText (Some t) maxLength = t) as Hshort.
  { intros [|c t] Ht; [done|]. unfold truncateText.
    by rewrite (proj2 (Nat.leb_le _ _) Ht). }
  assert (forall t : string, (maxLength < String.length t)%nat ->
            truncateText (Some t) maxLength = substring0 maxLength t +:+ "...")
    as Hlong.
  { intros [|c t] Ht; [cbn in Ht; lia|]. unfold truncateText.
    by rewrite (proj2 (Nat.leb_gt _ _) Ht). }
  split_and!; [done|done|exact (Hshort text)| |].
  - intros Ht. split; [by apply Hlong|].
    rewrite Hlong, length_append, length_substring0 by done. cbn. lia.
  - destruct (Nat.le_gt_cases (String.length text) maxLength) as [Ht|Ht].
    + rewrite (Hshort text Ht). by apply Hshort.
    + rewrite (Hlong text Ht). rewrite Hlong.
      * rewrite substring0_append, substring0_twice; [done|].
        rewrite length_substring0. lia.
      * rewrite length_append, length_substring0. cbn. lia.
Qed.

Lemma truncateText_spec_witness :
  truncateText (Some "Tagaytay") 7 = "Tagayta..." /\
  String.length (truncateText (Some "Tagaytay") 7) = 10%nat.
Proof.
  exact (proj1 (proj2 (proj2 (proj2 (truncateText_spec "Tagaytay" 7))))
           (Nat.lt_succ_diag_r 7)).
Defined.

End RendererActions.
